(** * WinFlipbook: a shallow embedding of [WinFlipbook.cpp]

    The program generates [NUMIMAGES] frames of a vertical bar sweeping over a
    canvas, opens a window, compiles two shaders, and then uploads one frame
    per loop iteration until the escape key is pressed or the window is
    closed.

    The embedding follows the source:
    - C++ [int] values are [Z]; the arithmetic of the source stays inside
      the 32-bit range for the constants of [main] (lemma
      [main_constants_fit_int]), the only place that can leave it is the
      unbounded [++i] of the render loop: the standard leaves the
      increment of [INT_MAX] undefined, the compiled program wraps around
      to [INT_MIN], and the model wraps with it;
    - the image buffer is a [list] of cells written through a moving
      pointer, a cell being [None] while it is uninitialised;
    - calls into OpenGL, GLFW and GLEW are events of a trace, and what those
      libraries answer is read from a [world] record. *)

From Stdlib Require Import ZArith Lia Ascii String.
From stdpp Require Import base list list_numbers strings.

Local Open Scope Z_scope.

(** ** Integers and constants of the source *)

Definition INT_MAX : Z := 2147483647.
Definition INT_MIN : Z := -2147483648.

Definition fits_int (z : Z) : Prop := INT_MIN <= z <= INT_MAX.

(** [const int NUMIMAGES = 10;] and the two constants of [main]. *)
Definition NUMIMAGES : Z := 10.
Definition width : Z := 1024.
Definition height : Z := 768.

(** The two values the generator stores: [0xffffffff] and [0]. *)
Definition WHITE : Z := 0xffffffff.
Definition BLACK : Z := 0.

(** The four 8-bit channels of a stored [unsigned], lowest byte first, as
    [GL_RGBA]/[GL_UNSIGNED_BYTE] reads them. *)
Definition channel (k : Z) (v : Z) : Z := Z.land (Z.shiftr v (8 * k)) 255.
Definition rgba (v : Z) : Z * Z * Z * Z :=
  (channel 0 v, channel 1 v, channel 2 v, channel 3 v).

(** [sizeof(unsigned)]: the upload reads four bytes per texel and the frame
    stride [width*height] is counted in [unsigned]s, so the source relies on
    a four-byte [unsigned]. *)
Definition sizeof_unsigned : Z := 4.

(** ** The image generator (lines 186-202 of [main]) *)

(** A cell of the buffer: [None] until the first store ([new unsigned[n]]
    leaves the elements uninitialised). *)
Abbreviation cell := (option Z).

(** [new unsigned[n]] *)
Definition new_unsigned (n : Z) : list cell := replicate (Z.to_nat n) None.

(** Bytes taken by [new unsigned[n]]. *)
Definition alloc_bytes (n : Z) : Z := n * sizeof_unsigned.

(** The buffer, the offset of [p] from [images] (in elements), and the
    element counts of the allocations made so far. *)
Record gen_state : Type := GenState {
  mem : list cell;
  p : nat;
  allocs : list Z
}.

(** [*p++ = v]; a store outside the allocation has no defined result. *)
Definition store (v : Z) (s : gen_state) : option gen_state :=
  if decide (p s < length (mem s))%nat
  then Some (GenState (<[p s := Some v]> (mem s)) (S (p s)) (allocs s))
  else None.

(** [for (i = lo; i < hi; i++) body]: [for_loop] runs [count] iterations
    from [i]; [for_range] takes the count from the bounds. *)
Fixpoint for_loop (count : nat) (i : Z)
    (body : Z -> gen_state -> option gen_state) (s : gen_state)
    : option gen_state :=
  match count with
  | O => Some s
  | S count' =>
      match body i s with
      | Some s' => for_loop count' (i + 1) body s'
      | None => None
      end
  end.

Definition for_range (lo hi : Z)
    (body : Z -> gen_state -> option gen_state) (s : gen_state)
    : option gen_state :=
  for_loop (Z.to_nat (hi - lo)) lo body s.

(** [int bar = width * i / NUMIMAGES;] and [int barw = width / NUMIMAGES;]
    ([/] on [int] truncates: [Z.quot]). *)
Definition bar_of (w n i : Z) : Z := Z.quot (w * i) n.
Definition barw_of (w n : Z) : Z := Z.quot w n.

(** [if (x >= bar && x <= bar + barw) ... 0xffffffff; else ... 0;] *)
Definition texel (bar barw x : Z) : Z :=
  if (x >=? bar) && (x <=? bar + barw) then WHITE else BLACK.

Definition fill_row (w bar barw : Z) : gen_state -> option gen_state :=
  for_range 0 w (fun x => store (texel bar barw x)).

Definition fill_frame (w h n i : Z) : gen_state -> option gen_state :=
  let bar := bar_of w n i in
  let barw := barw_of w n in
  for_range 0 h (fun _ => fill_row w bar barw).

(** The whole block: one allocation, then the three nested loops. *)
Definition generate (w h n : Z) : option gen_state :=
  let count := w * h * n * 4 in
  for_range 0 n (fill_frame w h n)
    (GenState (new_unsigned count) 0 [count]).

(** The texel of frame [i], row [y], column [x] in a generated buffer. *)
Definition texel_index (w h i y x : Z) : nat :=
  Z.to_nat (i * w * h + y * w + x).

Definition texel_at (s : gen_state) (w h i y x : Z) : option cell :=
  mem s !! texel_index w h i y x.

(** ** What the program calls and what it is told *)

(** [GL_VERTEX_SHADER] and [GL_FRAGMENT_SHADER], the two values given to
    [shader_base]'s constructor. *)
Inductive shader_kind : Type := GL_VERTEX_SHADER | GL_FRAGMENT_SHADER.

(** The hints [main] sets before it opens the window. *)
Inductive window_hint : Type :=
| GLFW_SAMPLES
| GLFW_CONTEXT_VERSION_MAJOR
| GLFW_CONTEXT_VERSION_MINOR
| GLFW_OPENGL_FORWARD_COMPAT
| GLFW_OPENGL_PROFILE.

(** Buffer targets of [glBindBuffer] and [glBufferData]. *)
Inductive buffer_target : Type := GL_ARRAY_BUFFER | GL_ELEMENT_ARRAY_BUFFER.

(** Values of the OpenGL, GLFW and GLEW headers that the source compares
    against or passes on. *)
Definition GL_TRUE : Z := 1.
Definition GL_FALSE : Z := 0.
Definition GLFW_PRESS : Z := 1.
Definition GLFW_RELEASE : Z := 0.
Definition GLEW_OK : Z := 0.
Definition NULL : Z := 0.
Definition GLFW_OPENGL_CORE_PROFILE : Z := 0x00032001.

(** Every call that leaves the program, in the order it is made. A call
    that hands a value back carries that value. *)
Inductive event : Type :=
| Fprintf_stderr (text : string)
| Getchar
| Cerr (text : string)
| Cout (text : string)
| GlfwInit
| GlfwWindowHint (hint : window_hint) (value : Z)
| GlfwCreateWindow (w h : Z) (title : string)
| GlfwMakeContextCurrent
| GlewInit
| GlGetString (name : string)
| GlfwSetInputMode
| GlGenVertexArrays (name : Z)
| GlBindVertexArray (name : Z)
| GlCreateShader (kind : shader_kind) (name : Z)
| GlShaderSource (shader : Z) (src : string)
| GlCompileShader (shader : Z)
| GlGetShaderiv (shader : Z) (status : Z)
| GlGetShaderInfoLog (shader : Z) (max_length : Z)
| GlDeleteShader (shader : Z)
| GlCreateProgram (name : Z)
| GlAttachShader (program shader : Z)
| GlBindFragDataLocation (program : Z) (color_number : Z) (name : string)
| GlLinkProgram (program : Z)
| GlUseProgram (program : Z)
| GlDeleteProgram (program : Z)
| GlGetAttribLocation (program : Z) (name : string)
| GlGetUniformLocation (program : Z) (name : string)
| GlGenBuffers (name : Z)
| GlBindBuffer (target : buffer_target) (name : Z)
| GlBufferData (target : buffer_target) (size : Z)
| GlVertexAttribPointer (index : Z)
| GlEnableVertexAttribArray (index : Z)
| GlUniform2f (location : Z) (w h : Z)
| GlGenTextures (name : Z)
| GlBindTexture (name : Z)
| GlTexParameteri
| GlDeleteTextures (name : Z)
| GlClearColor
| GlClear
| GlTexImage2D (w h : Z) (offset : Z)
| GlDrawElements (count : Z)
| GlfwSwapBuffers
| GlfwPollEvents
| GlfwGetKey (state : Z)
| GlfwWindowShouldClose (flag : Z)
| GlDeleteBuffers (name : Z)
| GlDeleteVertexArrays (name : Z)
| GlfwTerminate.

(** What the tail of one loop iteration samples: the state of the escape
    key and the close flag of the window. *)
Record sample : Type := Sample { key_state : Z; close_flag : Z }.

(** The answers of the libraries and of the user during one run. *)
Record world : Type := World {
  glfwInit_result : Z;
  glfwCreateWindow_result : Z;
  glewInit_result : Z;
  (** compile status and info log the driver has for a source text *)
  driver_compile : shader_kind -> string -> Z * list ascii;
  shader_name : shader_kind -> Z;
  program_name : Z;
  vao_name : Z;
  vbo_name : Z;
  ebo_name : Z;
  texture_name : Z;
  attrib_location : string -> Z;
  uniform_location : string -> Z;
  samples : list sample
}.

(** ** Control: normal completion, [return] from [main], an uncaught
    [runtime_error], a loop that is still running when the samples end,
    and undefined behaviour. *)
Inductive result (A : Type) : Type :=
| Normal (a : A)
| Returned (code : Z)
| Thrown (what : list ascii)
| StillRunning
| Undefined.
Arguments Normal {A} a.
Arguments Returned {A} code.
Arguments Thrown {A} what.
Arguments StillRunning {A}.
Arguments Undefined {A}.

Definition M (A : Type) : Type := list event * result A.

Definition ret {A} (a : A) : M A := ([], Normal a).

Definition bind {A B} (m : M A) (k : A -> M B) : M B :=
  match m with
  | (t, Normal a) => let (t', r) := k a in (t ++ t', r)
  | (t, Returned c) => (t, Returned c)
  | (t, Thrown e) => (t, Thrown e)
  | (t, StillRunning) => (t, StillRunning)
  | (t, Undefined) => (t, Undefined)
  end.

Declare Scope prog_scope.
Delimit Scope prog_scope with prog.
Notation "x <- m ;; k" := (bind m (fun x => k))
  (at level 100, m at next level, right associativity) : prog_scope.
Notation "m ;; k" := (bind m (fun _ => k))
  (at level 100, right associativity) : prog_scope.

Definition call (e : event) : M unit := ([e], Normal tt).
Definition answer {A} (e : event) (a : A) : M A := ([e], Normal a).
Definition calls (t : list event) : M unit := (t, Normal tt).
Definition return_ {A} (code : Z) : M A := ([], Returned code).
Definition throw {A} (what : list ascii) : M A := ([], Thrown what).

(** An object with a destructor: the destructor runs when the rest of the
    scope completes or executes [return]. An exception that nothing
    catches ends the process in [std::terminate]; no destructor is run for
    it here. *)
Definition scoped {A B} (ctor : M A) (dtor : A -> list event)
    (rest : A -> M B) : M B :=
  bind ctor (fun o =>
    match rest o with
    | (t, Normal b) => (t ++ dtor o, Normal b)
    | (t, Returned c) => (t ++ dtor o, Returned c)
    | other => other
    end).

(** ** Embedded shader sources *)

Definition newline : string := String (ascii_of_nat 10) EmptyString.

Definition vertex_prog : string :=
  String.concat EmptyString
    ["#version 150";
     newline;
     "                                  ";
     "in vec2 position;                               ";
     "void main()                                     ";
     "{                                               ";
     "    gl_Position = vec4(position, 0.5, 1.0);     ";
     "}"].

Definition fragment_prog : string :=
  String.concat EmptyString
    ["#version 150";
     newline;
     "                                  ";
     "out vec4 outColor;                              ";
     "uniform vec2 dims;                              ";
     "uniform sampler2D tex;                          ";
     "void main() {                                   ";
     "  vec2 uv;                                      ";
     "  uv[0] = gl_FragCoord[0]/dims[0];              ";
     "  uv[1] = 1.0f - (gl_FragCoord[1]/dims[1]);     ";
     "  outColor = texture(tex, uv);                  ";
     "}                                               "].

(** ** [struct shader_base] *)

Record shader_base : Type := ShaderBase {
  prog_type : shader_kind;
  shader_obj : Z
}.

Definition NUL : ascii := Ascii.zero.

(** [char buffer[512]; glGetShaderInfoLog(shader_obj, 512, NULL, buffer);]
    the driver copies at most [max_length - 1] characters of its log and
    terminates them with a NUL. *)
Definition info_log_buffer (max_length : nat) (log : list ascii) : list ascii :=
  take (max_length - 1) log ++ [NUL].

(** [runtime_error(buffer)]: the message is the C string in the buffer, the
    characters before the first NUL. *)
Fixpoint c_str (buffer : list ascii) : list ascii :=
  match buffer with
  | [] => []
  | c :: rest => if decide (c = NUL) then [] else c :: c_str rest
  end.

(** [shader_base::compile]; [src] is the text the constructor attached to
    [shader_obj] with [glShaderSource]. *)
Definition compile (w : world) (src : string) (sh : shader_base) : M unit :=
  (call (GlCompileShader (shader_obj sh)) ;;
   let (status, log) := driver_compile w (prog_type sh) src in
   call (GlGetShaderiv (shader_obj sh) status) ;;
   if decide (GL_TRUE <> status) then
     call (GlGetShaderInfoLog (shader_obj sh) 512) ;;
     throw (c_str (info_log_buffer 512 log))
   else ret tt)%prog.

(** [shader_base::shader_base(src, type)] *)
Definition shader_base_new (w : world) (src : string) (type : shader_kind)
    : M shader_base :=
  (obj <- answer (GlCreateShader type (shader_name w type)) (shader_name w type) ;;
   let sh := ShaderBase type obj in
   call (GlShaderSource obj src) ;;
   compile w src sh ;;
   ret sh)%prog.

(** [shader_base::~shader_base] *)
Definition shader_base_delete (sh : shader_base) : list event :=
  [GlDeleteShader (shader_obj sh)].

(** [shader_base::attach] *)
Definition shader_attach (sh : shader_base) (program : Z) : M unit :=
  call (GlAttachShader program (shader_obj sh)).

(** [fragment_shader] and [vertex_shader] only fix the kind. *)
Definition fragment_shader (w : world) (src : string) : M shader_base :=
  shader_base_new w src GL_FRAGMENT_SHADER.
Definition vertex_shader (w : world) (src : string) : M shader_base :=
  shader_base_new w src GL_VERTEX_SHADER.

(** ** [struct shader_program] *)

Definition shader_program_new (w : world) : M Z :=
  answer (GlCreateProgram (program_name w)) (program_name w).

Definition shader_program_delete (handle : Z) : list event :=
  [GlDeleteProgram handle].

(** [shader_program::attach(vertex_shader&)] *)
Definition attach_vertex (handle : Z) (vp : shader_base) : M unit :=
  shader_attach vp handle.

(** [shader_program::attach(fragment_shader&)] *)
Definition attach_fragment (handle : Z) (fp : shader_base) : M unit :=
  (shader_attach fp handle ;;
   call (GlBindFragDataLocation handle 0 "outColor"))%prog.

Definition link (handle : Z) : M unit := call (GlLinkProgram handle).
Definition use (handle : Z) : M unit := call (GlUseProgram handle).

Definition attrib (w : world) (handle : Z) (name : string) : M Z :=
  answer (GlGetAttribLocation handle name) (attrib_location w name).
Definition uniform (w : world) (handle : Z) (name : string) : M Z :=
  answer (GlGetUniformLocation handle name) (uniform_location w name).

(** A chain of member calls on one program, [program.a().b()...]. *)
Inductive program_call : Type := CallAttachVertex | CallAttachFragment | CallLink | CallUse.

Definition program_call_run (handle : Z) (vp fp : shader_base)
    (c : program_call) : M unit :=
  match c with
  | CallAttachVertex => attach_vertex handle vp
  | CallAttachFragment => attach_fragment handle fp
  | CallLink => link handle
  | CallUse => use handle
  end.

Fixpoint program_chain (handle : Z) (vp fp : shader_base)
    (cs : list program_call) : M unit :=
  match cs with
  | [] => ret tt
  | c :: cs' =>
      (program_call_run handle vp fp c ;; program_chain handle vp fp cs')%prog
  end.

(** ** [struct framebuffer] *)

Record framebuffer : Type := Framebuffer {
  fb_handle : Z;
  fb_width : Z;
  fb_height : Z
}.

Definition framebuffer_new (w : world) (_w _h : Z) : M framebuffer :=
  answer (GlGenTextures (texture_name w)) (Framebuffer (texture_name w) _w _h).

Definition framebuffer_delete (f : framebuffer) : list event :=
  [GlDeleteTextures (fb_handle f)].

Definition framebuffer_bind (f : framebuffer) : M unit :=
  calls [GlBindTexture (fb_handle f);
         GlTexParameteri; GlTexParameteri; GlTexParameteri; GlTexParameteri].

(** [framebuffer::draw(img)]; [offset] is [img - images], in elements. *)
Definition framebuffer_draw (f : framebuffer) (offset : Z) : M unit :=
  call (GlTexImage2D (fb_width f) (fb_height f) offset).

(** ** The render loop (lines 300-313 of [main]) *)

(** [(i%NUMIMAGES)*width*height]: the offset handed to [frame.draw]; [%] on
    [int] has the sign of the dividend ([Z.rem]). *)
Definition frame_offset (W H N i : Z) : Z := Z.rem i N * W * H.

(** The two states the loop can be in once it has started. *)
Inductive loop_state : Type := Running (i : Z) | ShuttingDown.

(** [++i] on an [int]. The increment of [INT_MAX] is signed overflow; the
    32-bit two's complement counter of the compiled program wraps around
    to [INT_MIN] there. *)
Definition int_succ (i : Z) : Z :=
  if decide (i = INT_MAX) then INT_MIN else i + 1.

(** The body of the [do]: upload, draw, swap, poll, [++i]. *)
Definition loop_body (W H N : Z) (frame : framebuffer) (i : Z) : M Z :=
  (framebuffer_draw frame (frame_offset W H N i) ;;
   call (GlDrawElements 6) ;;
   call GlfwSwapBuffers ;;
   call GlfwPollEvents ;;
   ret (int_succ i))%prog.

(** [while (glfwGetKey(window, GLFW_KEY_ESCAPE) != GLFW_PRESS &&
           glfwWindowShouldClose(window) == 0)]: [true] to go round again.
    [&&] does not ask for the close flag once the key is pressed. *)
Definition loop_condition (s : sample) : M bool :=
  (key <- answer (GlfwGetKey (key_state s)) (key_state s) ;;
   if decide (key <> GLFW_PRESS) then
     flag <- answer (GlfwWindowShouldClose (close_flag s)) (close_flag s) ;;
     ret (bool_decide (flag = 0))
   else ret false)%prog.

(** One pass from [Running i]: the body, then the check at the tail. *)
Definition iteration (W H N : Z) (frame : framebuffer) (i : Z) (s : sample)
    : M loop_state :=
  (i' <- loop_body W H N frame i ;;
   again <- loop_condition s ;;
   ret (if again : bool then Running i' else ShuttingDown))%prog.

(** The loop over the samples of a run; it is still running when they are
    used up. *)
Fixpoint render_loop (W H N : Z) (frame : framebuffer) (ins : list sample)
    (i : Z) : M unit :=
  match ins with
  | [] => ([], StillRunning)
  | s :: ins' =>
      (st <- iteration W H N frame i s ;;
       match st with
       | Running i' => render_loop W H N frame ins' i'
       | ShuttingDown => ret tt
       end)%prog
  end.


(** The read stays inside the allocation. *)
Definition upload_in_bounds (images : gen_state) (W H offset : Z) : Prop :=
  0 <= offset /\ offset + W * H <= Z.of_nat (length (mem images)).

(** The offsets uploaded in a trace, in order. *)
Definition upload_offset (e : event) : option Z :=
  match e with
  | GlTexImage2D _ _ offset => Some offset
  | _ => None
  end.
Definition upload_offsets (t : list event) : list Z := omap upload_offset t.

(** ** [main] *)

Definition msg_glfw : string :=
  String.append "Failed to initialize GLFW" newline.
Definition msg_window : string :=
  "Failed to open GLFW window. If you have an Intel GPU, they are not 3.3 compatible. Try the 2.1 version of the tutorials.".
Definition msg_glew : string := "Failed to initialize GLEW".

(** [main] with its three constants as parameters. *)
Definition flipbook (W H N : Z) (w : world) : M unit :=
  match generate W H N with
  | None => ([], Undefined)
  | Some images =>
    (ok <- answer GlfwInit (glfwInit_result w) ;;
     if decide (ok = 0) then
       call (Fprintf_stderr msg_glfw) ;; call Getchar ;; return_ (-1)
     else
     calls [GlfwWindowHint GLFW_SAMPLES 4;
            GlfwWindowHint GLFW_CONTEXT_VERSION_MAJOR 3;
            GlfwWindowHint GLFW_CONTEXT_VERSION_MINOR 3;
            GlfwWindowHint GLFW_OPENGL_FORWARD_COMPAT GL_TRUE;
            GlfwWindowHint GLFW_OPENGL_PROFILE GLFW_OPENGL_CORE_PROFILE] ;;
     window <- answer (GlfwCreateWindow W H "Flipbook") (glfwCreateWindow_result w) ;;
     if decide (window = NULL) then
       call (Cerr msg_window) ;; call GlfwTerminate ;; return_ (-1)
     else
     call GlfwMakeContextCurrent ;;
     glew <- answer GlewInit (glewInit_result w) ;;
     if decide (glew <> GLEW_OK) then
       call (Cerr msg_glew) ;; call GlfwTerminate ;; return_ (-1)
     else
     calls [Cout "GL Vendor = "; GlGetString "GL_VENDOR";
            Cout (String.append newline "GL Renderer = ");
            GlGetString "GL_RENDERER";
            Cout (String.append newline "GL Version = ");
            GlGetString "GL_VERSION"] ;;
     call GlfwSetInputMode ;;
     vao <- answer (GlGenVertexArrays (vao_name w)) (vao_name w) ;;
     call (GlBindVertexArray vao) ;;
     scoped (vertex_shader w vertex_prog) shader_base_delete (fun vtx_shader =>
     scoped (fragment_shader w fragment_prog) shader_base_delete (fun frag_shader =>
     scoped (shader_program_new w) shader_program_delete (fun program =>
       attach_vertex program vtx_shader ;;
       attach_fragment program frag_shader ;;
       link program ;;
       use program ;;
       vbo <- answer (GlGenBuffers (vbo_name w)) (vbo_name w) ;;
       calls [GlBindBuffer GL_ARRAY_BUFFER vbo; GlBufferData GL_ARRAY_BUFFER 32] ;;
       pos_attr <- attrib w program "position" ;;
       calls [GlVertexAttribPointer pos_attr; GlEnableVertexAttribArray pos_attr] ;;
       ebo <- answer (GlGenBuffers (ebo_name w)) (ebo_name w) ;;
       calls [GlBindBuffer GL_ELEMENT_ARRAY_BUFFER ebo;
              GlBufferData GL_ELEMENT_ARRAY_BUFFER 24] ;;
       dim_attr <- uniform w program "dims" ;;
       call (GlUniform2f dim_attr W H) ;;
       scoped (framebuffer_new w W H) framebuffer_delete (fun frame =>
         framebuffer_bind frame ;;
         calls [GlClearColor; GlClear] ;;
         render_loop W H N frame (samples w) 0 ;;
         calls [GlDeleteBuffers ebo; GlDeleteBuffers vbo;
                GlDeleteVertexArrays vao] ;;
         call GlfwTerminate ;;
         return_ 0)))))%prog
  end.

Definition main (w : world) : M unit := flipbook width height NUMIMAGES w.

(** The status the process exits with, when [main] returns. *)
Definition exit_status (m : M unit) : option Z :=
  match snd m with
  | Returned code => Some code
  | _ => None
  end.

(** ** GPU objects in a trace *)

Inductive resource : Type :=
| VertexArray (name : Z)
| Shader (name : Z)
| Program (name : Z)
| Buffer (name : Z)
| Texture (name : Z).

Definition creates (e : event) : option resource :=
  match e with
  | GlGenVertexArrays n => Some (VertexArray n)
  | GlCreateShader _ n => Some (Shader n)
  | GlCreateProgram n => Some (Program n)
  | GlGenBuffers n => Some (Buffer n)
  | GlGenTextures n => Some (Texture n)
  | _ => None
  end.

Definition releases (e : event) : option resource :=
  match e with
  | GlDeleteVertexArrays n => Some (VertexArray n)
  | GlDeleteShader n => Some (Shader n)
  | GlDeleteProgram n => Some (Program n)
  | GlDeleteBuffers n => Some (Buffer n)
  | GlDeleteTextures n => Some (Texture n)
  | _ => None
  end.

Definition created (t : list event) : list resource := omap creates t.
Definition released (t : list event) : list resource := omap releases t.

(** ** Specification vocabulary *)

(** [fills s s' n g]: from [s] to [s'] exactly the [n] cells at [p s] were
    written, the [k]-th of them with [g k]; [p] moved past them. *)
Definition fills (s s' : gen_state) (n : nat) (g : nat -> Z) : Prop :=
  p s' = (p s + n)%nat /\
  length (mem s') = length (mem s) /\
  allocs s' = allocs s /\
  (forall k, (k < n)%nat -> mem s' !! (p s + k)%nat = Some (Some (g k))) /\
  (forall j, (j < p s)%nat \/ (p s + n <= j)%nat -> mem s' !! j = mem s !! j).

(** Row [y] of frame [i] of a generated buffer, and the number of opaque
    white columns in it. *)
Definition row_of (s : gen_state) (w h i y : Z) : list cell :=
  take (Z.to_nat w) (drop (texel_index w h i y 0) (mem s)).

Definition white_columns (s : gen_state) (w h i y : Z) : nat :=
  length (filter (fun c : cell => c = Some WHITE) (row_of s w h i y)).

(** The exit condition of the render loop, as the specification words it:
    the exit key is pressed or the window has signalled a close request. *)
Definition exit_requested (s : sample) : Prop :=
  key_state s = GLFW_PRESS \/ close_flag s <> 0.

#[local] Instance exit_requested_dec (s : sample) : Decision (exit_requested s) :=
  ltac:(unfold exit_requested; apply _).

(** The calls of one loop body and of one evaluation of the condition. *)
Definition body_events (W H N : Z) (frame : framebuffer) (i : Z) : list event :=
  [GlTexImage2D (fb_width frame) (fb_height frame) (frame_offset W H N i);
   GlDrawElements 6; GlfwSwapBuffers; GlfwPollEvents].

Definition condition_events (s : sample) : list event :=
  if decide (key_state s <> GLFW_PRESS)
  then [GlfwGetKey (key_state s); GlfwWindowShouldClose (close_flag s)]
  else [GlfwGetKey (key_state s)].

(** The calls of [main] between a successful start of the libraries and
    the loop, when both shaders compile. *)
Definition setup_events (W H : Z) (w : world) : list event :=
  [GlfwInit;
   GlfwWindowHint GLFW_SAMPLES 4;
   GlfwWindowHint GLFW_CONTEXT_VERSION_MAJOR 3;
   GlfwWindowHint GLFW_CONTEXT_VERSION_MINOR 3;
   GlfwWindowHint GLFW_OPENGL_FORWARD_COMPAT GL_TRUE;
   GlfwWindowHint GLFW_OPENGL_PROFILE GLFW_OPENGL_CORE_PROFILE;
   GlfwCreateWindow W H "Flipbook";
   GlfwMakeContextCurrent;
   GlewInit;
   Cout "GL Vendor = "; GlGetString "GL_VENDOR";
   Cout (String.append newline "GL Renderer = "); GlGetString "GL_RENDERER";
   Cout (String.append newline "GL Version = "); GlGetString "GL_VERSION";
   GlfwSetInputMode;
   GlGenVertexArrays (vao_name w);
   GlBindVertexArray (vao_name w);
   GlCreateShader GL_VERTEX_SHADER (shader_name w GL_VERTEX_SHADER);
   GlShaderSource (shader_name w GL_VERTEX_SHADER) vertex_prog;
   GlCompileShader (shader_name w GL_VERTEX_SHADER);
   GlGetShaderiv (shader_name w GL_VERTEX_SHADER) GL_TRUE;
   GlCreateShader GL_FRAGMENT_SHADER (shader_name w GL_FRAGMENT_SHADER);
   GlShaderSource (shader_name w GL_FRAGMENT_SHADER) fragment_prog;
   GlCompileShader (shader_name w GL_FRAGMENT_SHADER);
   GlGetShaderiv (shader_name w GL_FRAGMENT_SHADER) GL_TRUE;
   GlCreateProgram (program_name w);
   GlAttachShader (program_name w) (shader_name w GL_VERTEX_SHADER);
   GlAttachShader (program_name w) (shader_name w GL_FRAGMENT_SHADER);
   GlBindFragDataLocation (program_name w) 0 "outColor";
   GlLinkProgram (program_name w);
   GlUseProgram (program_name w);
   GlGenBuffers (vbo_name w);
   GlBindBuffer GL_ARRAY_BUFFER (vbo_name w);
   GlBufferData GL_ARRAY_BUFFER 32;
   GlGetAttribLocation (program_name w) "position";
   GlVertexAttribPointer (attrib_location w "position");
   GlEnableVertexAttribArray (attrib_location w "position");
   GlGenBuffers (ebo_name w);
   GlBindBuffer GL_ELEMENT_ARRAY_BUFFER (ebo_name w);
   GlBufferData GL_ELEMENT_ARRAY_BUFFER 24;
   GlGetUniformLocation (program_name w) "dims";
   GlUniform2f (uniform_location w "dims") W H;
   GlGenTextures (texture_name w);
   GlBindTexture (texture_name w);
   GlTexParameteri; GlTexParameteri; GlTexParameteri; GlTexParameteri;
   GlClearColor; GlClear].

(** The releases [main] writes out after the loop, and those of the
    destructors that run when [main] returns, innermost object first. *)
Definition explicit_releases (w : world) : list event :=
  [GlDeleteBuffers (ebo_name w); GlDeleteBuffers (vbo_name w);
   GlDeleteVertexArrays (vao_name w)].

Definition scope_exit_releases (w : world) : list event :=
  [GlDeleteTextures (texture_name w);
   GlDeleteProgram (program_name w);
   GlDeleteShader (shader_name w GL_FRAGMENT_SHADER);
   GlDeleteShader (shader_name w GL_VERTEX_SHADER)].

Definition shutdown_events (w : world) : list event :=
  explicit_releases w ++ [GlfwTerminate] ++ scope_exit_releases w.

(** The three start-up steps succeed, and the driver accepts both embedded
    sources. *)
Definition starts (w : world) : Prop :=
  glfwInit_result w <> 0 /\
  glfwCreateWindow_result w <> NULL /\
  glewInit_result w = GLEW_OK.

Definition shaders_compile (w : world) : Prop :=
  fst (driver_compile w GL_VERTEX_SHADER vertex_prog) = GL_TRUE /\
  fst (driver_compile w GL_FRAGMENT_SHADER fragment_prog) = GL_TRUE.

#[local] Instance starts_dec (w : world) : Decision (starts w) :=
  ltac:(unfold starts; apply _).
#[local] Instance shaders_compile_dec (w : world) : Decision (shaders_compile w) :=
  ltac:(unfold shaders_compile; apply _).

(** The GPU objects [main] creates, in creation order, and in the order
    in which it lets go of them. *)
Definition setup_resources (w : world) : list resource :=
  [VertexArray (vao_name w);
   Shader (shader_name w GL_VERTEX_SHADER);
   Shader (shader_name w GL_FRAGMENT_SHADER);
   Program (program_name w);
   Buffer (vbo_name w);
   Buffer (ebo_name w);
   Texture (texture_name w)].

Definition shutdown_resources (w : world) : list resource :=
  [Buffer (ebo_name w);
   Buffer (vbo_name w);
   VertexArray (vao_name w);
   Texture (texture_name w);
   Program (program_name w);
   Shader (shader_name w GL_FRAGMENT_SHADER);
   Shader (shader_name w GL_VERTEX_SHADER)].

(** ** Sample worlds *)

(** A driver that accepts every source without a word, one that rejects
    every source without a word, and one that rejects every source with a
    600-character log. *)
Definition accepting_driver (k : shader_kind) (src : string) : Z * list ascii :=
  (GL_TRUE, []).
Definition silent_driver (k : shader_kind) (src : string) : Z * list ascii :=
  (GL_FALSE, []).
Definition verbose_driver (k : shader_kind) (src : string) : Z * list ascii :=
  (GL_FALSE, replicate 600 "e"%char).

Definition sample_names (k : shader_kind) : Z :=
  match k with GL_VERTEX_SHADER => 1 | GL_FRAGMENT_SHADER => 2 end.

(** A run in which everything starts; the driver and the samples vary. *)
Definition sample_world (driver : shader_kind -> string -> Z * list ascii)
    (ins : list sample) : world :=
  World 1 1 GLEW_OK driver sample_names 3 1 1 2 1 (fun _ => 0) (fun _ => 0) ins.

(** A run in which nobody asks to leave during the first [INT_MAX + 2]
    iterations: the key is up and the close flag clear at every check. *)
Definition idle : sample := Sample GLFW_RELEASE 0.
Definition long_run : list sample :=
  replicate (Z.to_nat INT_MAX) idle ++ [idle; idle].
Definition patient_world : world := sample_world accepting_driver long_run.

(** ** Vocabulary for whole traces *)

(** The calls into OpenGL proper, as opposed to GLFW, GLEW and stdio. *)
Definition is_gl_call (e : event) : bool :=
  match e with
  | Fprintf_stderr _ | Getchar | Cerr _ | Cout _
  | GlfwInit | GlfwWindowHint _ _ | GlfwCreateWindow _ _ _
  | GlfwMakeContextCurrent | GlewInit | GlfwSetInputMode
  | GlfwSwapBuffers | GlfwPollEvents | GlfwGetKey _
  | GlfwWindowShouldClose _ | GlfwTerminate => false
  | _ => true
  end.

Definition is_terminate (e : event) : bool :=
  match e with GlfwTerminate => true | _ => false end.

(** How often a trace calls [glfwTerminate]. *)
Definition terminations (t : list event) : nat :=
  length (List.filter is_terminate t).

(** The calls of [main] up to the creation of the window, up to
    [glewInit], and from there to the first shader. *)
Definition window_events (W H : Z) : list event :=
  [GlfwInit;
   GlfwWindowHint GLFW_SAMPLES 4;
   GlfwWindowHint GLFW_CONTEXT_VERSION_MAJOR 3;
   GlfwWindowHint GLFW_CONTEXT_VERSION_MINOR 3;
   GlfwWindowHint GLFW_OPENGL_FORWARD_COMPAT GL_TRUE;
   GlfwWindowHint GLFW_OPENGL_PROFILE GLFW_OPENGL_CORE_PROFILE;
   GlfwCreateWindow W H "Flipbook"].

Definition startup_events (W H : Z) : list event :=
  window_events W H ++ [GlfwMakeContextCurrent; GlewInit].

Definition context_events (w : world) : list event :=
  [Cout "GL Vendor = "; GlGetString "GL_VENDOR";
   Cout (String.append newline "GL Renderer = "); GlGetString "GL_RENDERER";
   Cout (String.append newline "GL Version = "); GlGetString "GL_VERSION";
   GlfwSetInputMode;
   GlGenVertexArrays (vao_name w);
   GlBindVertexArray (vao_name w)].

(** The fragment-output bindings a trace makes: program, colour number and
    name of each [glBindFragDataLocation]. *)
Definition binding (e : event) : option (Z * Z * string) :=
  match e with
  | GlBindFragDataLocation prog n name => Some (prog, n, name)
  | _ => None
  end.
Definition bindings (t : list event) : list (Z * Z * string) := omap binding t.

Definition is_fragment_attach (c : program_call) : bool :=
  match c with CallAttachFragment => true | _ => false end.

(** * Runs on small inputs *)

(** Two frames of a 4 by 1 canvas: bar width [4/2 = 2], so frame 0 is white
    on columns 0..2 and frame 1 on columns 2..3; the other 24 elements of the
    allocation stay unwritten. *)
Example generate_small :
  mem <$> generate 4 1 2 =
  Some ([Some WHITE; Some WHITE; Some WHITE; Some BLACK;
         Some BLACK; Some BLACK; Some WHITE; Some WHITE] ++ replicate 24 None).
Proof. reflexivity. Qed.

(** Three frames of a 4 by 2 canvas, closed by the window in the fourth
    iteration: four uploads, the fourth of frame 0 again, status 0. *)
Example flipbook_small :
  let run := flipbook 4 2 3
               (sample_world accepting_driver
                  [Sample GLFW_RELEASE 0; Sample GLFW_RELEASE 0;
                   Sample GLFW_RELEASE 0; Sample GLFW_RELEASE 1;
                   Sample GLFW_RELEASE 0]) in
  upload_offsets (fst run) = [0; 8; 16; 0] /\
  snd run = Returned 0 /\
  released (fst run) =
    [Buffer 2; Buffer 1; VertexArray 1; Texture 1; Program 3;
     Shader 2; Shader 1].
Proof. repeat split; reflexivity. Qed.

(** A driver that rejects everything: the vertex shader already throws, and
    nothing is released. *)
Example flipbook_rejected :
  let run := flipbook 4 2 3 (sample_world verbose_driver []) in
  snd run = Thrown (replicate 511 "e"%char) /\
  created (fst run) = [VertexArray 1; Shader 1] /\
  released (fst run) = [].
Proof. repeat split; reflexivity. Qed.

(** A counter at [INT_MAX]: frame 7 is uploaded and the counter wraps; the
    next body uploads from eight frames before the buffer. *)
Example loop_body_at_int_max :
  loop_body 1024 768 10 (Framebuffer 1 1024 768) INT_MAX =
  ([GlTexImage2D 1024 768 (7 * 1024 * 768); GlDrawElements 6;
    GlfwSwapBuffers; GlfwPollEvents], Normal INT_MIN) /\
  loop_body 1024 768 10 (Framebuffer 1 1024 768) INT_MIN =
  ([GlTexImage2D 1024 768 (-8 * 1024 * 768); GlDrawElements 6;
    GlfwSwapBuffers; GlfwPollEvents], Normal (INT_MIN + 1)).
Proof. split; reflexivity. Qed.

(** * Properties of the image generator *)

Lemma store_fills (v : Z) (s : gen_state) :
  (p s + 1 <= length (mem s))%nat ->
  exists s', store v s = Some s' /\ fills s s' 1 (fun _ => v).
Proof.
  intros Hlen. unfold store.
  destruct (decide (p s < length (mem s))%nat) as [Hlt|Hge]; [|lia].
  eexists; split; [reflexivity|].
  unfold fills; simpl. repeat split.
  - lia.
  - apply length_insert.
  - intros k Hk. replace (p s + k)%nat with (p s) by lia.
    now apply list_lookup_insert_eq.
  - intros j Hj. apply list_lookup_insert_ne. lia.
Qed.

Lemma fills_ext (s s' : gen_state) (n m : nat) (g g' : nat -> Z) :
  fills s s' n g -> n = m -> (forall k, (k < n)%nat -> g k = g' k) ->
  fills s s' m g'.
Proof.
  intros (Hp & Hl & Ha & Hin & Hout) <- Hg.
  repeat split; auto.
  intros k Hk. rewrite <- Hg by assumption. auto.
Qed.

Lemma split_index (m k : nat) :
  (m <= k)%nat -> (0 < m)%nat ->
  (k / m = S ((k - m) / m))%nat /\ (k mod m = (k - m) mod m)%nat.
Proof.
  intros Hle Hm.
  pose proof (Nat.div_mod_eq (k - m) m) as E.
  pose proof (Nat.mod_upper_bound (k - m) m ltac:(lia)) as B.
  assert (Hk : (k = m * S ((k - m) / m) + (k - m) mod m)%nat) by nia.
  split.
  - symmetry. apply (Nat.div_unique k m _ ((k - m) mod m)); [lia|exact Hk].
  - symmetry. apply (Nat.mod_unique k m (S ((k - m) / m))); [lia|exact Hk].
Qed.

(** A loop whose body always writes the next [m] cells writes
    [count * m] cells, iteration [j] providing cells [j*m .. j*m + m - 1]. *)
Lemma for_loop_fills (m : nat) (g : Z -> nat -> Z)
    (body : Z -> gen_state -> option gen_state) :
  (forall i s, (p s + m <= length (mem s))%nat ->
     exists s', body i s = Some s' /\ fills s s' m (g i)) ->
  forall (count : nat) (i0 : Z) (s : gen_state),
  (p s + count * m <= length (mem s))%nat ->
  exists s', for_loop count i0 body s = Some s' /\
    fills s s' (count * m)
      (fun k => g (i0 + Z.of_nat (k / m)) (k mod m)%nat).
Proof.
  intros Hbody. induction count as [|count IH]; intros i0 s Hlen.
  - exists s. split; [reflexivity|].
    unfold fills; simpl. repeat split; auto; try lia.
  - simpl in Hlen. simpl for_loop.
    destruct (Hbody i0 s ltac:(lia)) as (s1 & E1 & Hp1 & Hl1 & Ha1 & Hin1 & Hout1).
    rewrite E1.
    destruct (IH (i0 + 1) s1 ltac:(lia)) as (s2 & E2 & Hp2 & Hl2 & Ha2 & Hin2 & Hout2).
    exists s2. split; [exact E2|].
    unfold fills. repeat split.
    + simpl. lia.
    + congruence.
    + congruence.
    + intros k Hk. simpl in Hk.
      destruct (decide (k < m)%nat) as [Hkm|Hkm].
      * rewrite Hout2 by lia. rewrite Hin1 by assumption.
        rewrite Nat.div_small, Nat.mod_small by assumption.
        now replace (i0 + Z.of_nat 0) with i0 by lia.
      * assert (Hm : (0 < m)%nat) by (destruct m; [simpl in Hk; lia | lia]).
        destruct (split_index m k ltac:(lia) Hm) as [Hd Hr].
        replace (p s + k)%nat with (p s1 + (k - m))%nat by lia.
        rewrite Hin2 by lia. rewrite Hd, Hr.
        now replace (i0 + 1 + Z.of_nat ((k - m) / m))
          with (i0 + Z.of_nat (S ((k - m) / m))) by lia.
    + intros j Hj. simpl in Hj.
      rewrite Hout2 by lia. apply Hout1. lia.
Qed.

Lemma fill_row_fills (w bar barw : Z) (s : gen_state) :
  (p s + Z.to_nat w <= length (mem s))%nat ->
  exists s', fill_row w bar barw s = Some s' /\
    fills s s' (Z.to_nat w) (fun k => texel bar barw (Z.of_nat k)).
Proof.
  intros Hlen. unfold fill_row, for_range. rewrite Z.sub_0_r.
  destruct (for_loop_fills 1 (fun x _ => texel bar barw x)
              (fun x => store (texel bar barw x))
              (fun i s0 H => store_fills (texel bar barw i) s0 H)
              (Z.to_nat w) 0 s ltac:(lia)) as (s' & E & F).
  exists s'. split; [exact E|].
  apply (fills_ext _ _ _ _ _ _ F); [lia|].
  intros k _. now rewrite Nat.div_1_r.
Qed.

Lemma fill_frame_fills (w h n i : Z) (s : gen_state) :
  (p s + Z.to_nat h * Z.to_nat w <= length (mem s))%nat ->
  exists s', fill_frame w h n i s = Some s' /\
    fills s s' (Z.to_nat h * Z.to_nat w)
      (fun k => texel (bar_of w n i) (barw_of w n)
                  (Z.of_nat (k mod Z.to_nat w))).
Proof.
  intros Hlen. unfold fill_frame, for_range. rewrite Z.sub_0_r.
  exact (for_loop_fills (Z.to_nat w)
           (fun _ k => texel (bar_of w n i) (barw_of w n) (Z.of_nat k))
           (fun _ => fill_row w (bar_of w n i) (barw_of w n))
           (fun _ s0 H => fill_row_fills w _ _ s0 H)
           (Z.to_nat h) 0 s Hlen).
Qed.

Lemma allocation_suffices (w h n : Z) :
  (Z.to_nat n * (Z.to_nat h * Z.to_nat w) <= Z.to_nat (w * h * n * 4))%nat.
Proof.
  destruct (Z.le_gt_cases w 0) as [Hw|Hw].
  { replace (Z.to_nat w) with 0%nat by lia. lia. }
  destruct (Z.le_gt_cases h 0) as [Hh|Hh].
  { replace (Z.to_nat h) with 0%nat by lia. lia. }
  destruct (Z.le_gt_cases n 0) as [Hn|Hn].
  { replace (Z.to_nat n) with 0%nat by lia. lia. }
  rewrite <- !Z2Nat.inj_mul by nia.
  apply Z2Nat.inj_le; nia.
Qed.

(** The generator never stores outside its allocation, whatever the three
    dimensions are, and the cells it has written are those of the
    [n] frames in order. *)
Lemma generate_fills (w h n : Z) :
  exists s', generate w h n = Some s' /\
    fills (GenState (new_unsigned (w * h * n * 4)) 0 [w * h * n * 4]) s'
      (Z.to_nat n * (Z.to_nat h * Z.to_nat w))
      (fun k =>
         texel (bar_of w n (Z.of_nat (k / (Z.to_nat h * Z.to_nat w))))
               (barw_of w n)
               (Z.of_nat ((k mod (Z.to_nat h * Z.to_nat w)) mod Z.to_nat w))).
Proof.
  unfold generate, for_range. rewrite Z.sub_0_r.
  destruct (for_loop_fills (Z.to_nat h * Z.to_nat w)
              (fun i k => texel (bar_of w n i) (barw_of w n)
                            (Z.of_nat (k mod Z.to_nat w)))
              (fill_frame w h n)
              (fun i s0 H => fill_frame_fills w h n i s0 H)
              (Z.to_nat n) 0
              (GenState (new_unsigned (w * h * n * 4)) 0 [w * h * n * 4]))
    as (s' & E & F).
  { simpl. unfold new_unsigned. rewrite length_replicate.
    apply allocation_suffices. }
  exists s'. split; [exact E|].
  apply (fills_ext _ _ _ _ _ _ F); [reflexivity|].
  intros k _. reflexivity.
Qed.

Lemma texel_index_split (w h i y x : Z) :
  0 <= i -> 0 <= y < h -> 0 <= x < w ->
  let k := texel_index w h i y x in
  let fr := (Z.to_nat h * Z.to_nat w)%nat in
  k = (Z.to_nat i * fr + (Z.to_nat y * Z.to_nat w + Z.to_nat x))%nat /\
  (k / fr)%nat = Z.to_nat i /\
  ((k mod fr) mod Z.to_nat w)%nat = Z.to_nat x.
Proof.
  intros Hi Hy Hx k fr.
  assert (Hk : k = (Z.to_nat i * fr + (Z.to_nat y * Z.to_nat w + Z.to_nat x))%nat).
  { unfold k, fr, texel_index. apply Nat2Z.inj.
    rewrite Z2Nat.id by nia.
    rewrite Nat2Z.inj_add, !Nat2Z.inj_mul, Nat2Z.inj_add, !Nat2Z.inj_mul.
    rewrite !Z2Nat.id by lia. ring. }
  assert (Hsmall : (Z.to_nat y * Z.to_nat w + Z.to_nat x < fr)%nat).
  { unfold fr. nia. }
  split; [exact Hk|]. split.
  - symmetry. apply (Nat.div_unique k fr _ (Z.to_nat y * Z.to_nat w + Z.to_nat x));
      [exact Hsmall | lia].
  - assert (Hm : (k mod fr = Z.to_nat y * Z.to_nat w + Z.to_nat x)%nat).
    { symmetry. apply (Nat.mod_unique k fr (Z.to_nat i)); [exact Hsmall | lia]. }
    rewrite Hm. symmetry.
    apply (Nat.mod_unique _ _ (Z.to_nat y)); lia.
Qed.

(** What [generate] leaves behind: one allocation of [w*h*n*4] elements,
    the first [w*h*n] of them written frame by frame, row by row, the rest
    untouched. *)
Lemma generate_spec (w h n : Z) :
  exists s, generate w h n = Some s /\
    allocs s = [w * h * n * 4] /\
    length (mem s) = Z.to_nat (w * h * n * 4) /\
    p s = (Z.to_nat n * (Z.to_nat h * Z.to_nat w))%nat /\
    (forall i y x, 0 <= i < n -> 0 <= y < h -> 0 <= x < w ->
       texel_at s w h i y x =
       Some (Some (texel (bar_of w n i) (barw_of w n) x))) /\
    (forall j, (p s <= j < length (mem s))%nat -> mem s !! j = Some None).
Proof.
  destruct (generate_fills w h n) as (s & E & Hp & Hl & Ha & Hin & Hout).
  simpl in Hp, Hl, Ha, Hin, Hout.
  exists s. split; [exact E|]. split; [exact Ha|].
  assert (Hlen : length (mem s) = Z.to_nat (w * h * n * 4)).
  { rewrite Hl. unfold new_unsigned. apply length_replicate. }
  split; [exact Hlen|]. split; [exact Hp|]. split.
  - intros i y x Hi Hy Hx. unfold texel_at.
    destruct (texel_index_split w h i y x ltac:(lia) Hy Hx) as (Hk & Hd & Hm).
    cbv zeta in Hk, Hd, Hm.
    rewrite Hin.
    + rewrite Hd, Hm, !Z2Nat.id by lia. reflexivity.
    + rewrite Hk.
      assert (Hi' : (S (Z.to_nat i) <= Z.to_nat n)%nat) by lia.
      assert (Hy' : (S (Z.to_nat y) <= Z.to_nat h)%nat) by lia.
      assert (Hx' : (Z.to_nat x < Z.to_nat w)%nat) by lia.
      pose proof (Nat.mul_le_mono_r _ _ (Z.to_nat h * Z.to_nat w) Hi').
      pose proof (Nat.mul_le_mono_r _ _ (Z.to_nat w) Hy').
      lia.
  - intros j Hj. rewrite Hout by lia.
    unfold new_unsigned. apply lookup_replicate_2. lia.
Qed.

(** ** The bar of a frame *)

Lemma texel_white (bar barw x : Z) :
  texel bar barw x = WHITE <-> bar <= x <= bar + barw.
Proof.
  unfold texel, WHITE, BLACK.
  destruct (x >=? bar) eqn:E1; destruct (x <=? bar + barw) eqn:E2; simpl;
    split; intros; try discriminate; lia.
Qed.

Lemma texel_black (bar barw x : Z) :
  texel bar barw x = BLACK <-> ~ (bar <= x <= bar + barw).
Proof.
  unfold texel, WHITE, BLACK.
  destruct (x >=? bar) eqn:E1; destruct (x <=? bar + barw) eqn:E2; simpl;
    split; intros; try discriminate; lia.
Qed.

Lemma white_is_opaque_white : rgba WHITE = (255, 255, 255, 255).
Proof. reflexivity. Qed.

Lemma black_is_transparent_black : rgba BLACK = (0, 0, 0, 0).
Proof. reflexivity. Qed.

(** On the values the loops go through, the truncating division of the
    source is the integer division of the specification. *)
Lemma bar_of_div (w n i : Z) :
  0 <= w -> 0 < n -> 0 <= i -> bar_of w n i = i * w / n.
Proof.
  intros Hw Hn Hi. unfold bar_of.
  rewrite Z.quot_div_nonneg by nia. f_equal. ring.
Qed.

Lemma barw_of_div (w n : Z) : 0 <= w -> 0 < n -> barw_of w n = w / n.
Proof. intros Hw Hn. unfold barw_of. now rewrite Z.quot_div_nonneg by lia. Qed.

Lemma main_constants_fit_int :
  fits_int (width * height * NUMIMAGES * 4) /\
  (forall i, 0 <= i < NUMIMAGES ->
     fits_int (width * i) /\
     fits_int (bar_of width NUMIMAGES i + barw_of width NUMIMAGES)) /\
  (forall i, fits_int i ->
     fits_int (frame_offset width height NUMIMAGES i)).
Proof.
  unfold fits_int, INT_MIN, INT_MAX, width, height, NUMIMAGES.
  split; [lia|]. split.
  - intros i Hi. rewrite bar_of_div, barw_of_div by lia.
    change (1024 / 10) with 102.
    assert (0 <= i * 1024 / 10 <= 1024).
    { split; [apply Z.div_pos; lia|].
      apply Z.div_le_upper_bound; lia. }
    lia.
  - intros i Hi. unfold frame_offset.
    pose proof (Z.rem_bound_abs i 10 ltac:(lia)). lia.
Qed.

Lemma generate_total (w h n : Z) : exists s, generate w h n = Some s.
Proof. destruct (generate_spec w h n) as (s & E & _). now exists s. Qed.

Lemma texel_at_white_iff (s : gen_state) (w h i y x bar barw : Z) :
  texel_at s w h i y x = Some (Some (texel bar barw x)) ->
  (texel_at s w h i y x = Some (Some 0xffffffff) <-> bar <= x <= bar + barw) /\
  (~ (bar <= x <= bar + barw) -> texel_at s w h i y x = Some (Some 0)).
Proof.
  intros E. rewrite E. split.
  - rewrite <- texel_white. unfold WHITE. split; congruence.
  - intros Hout. apply texel_black in Hout. unfold BLACK in Hout. congruence.
Qed.

(** C1. For every frame [i] in [[0, N)] and every row, the generator sets the
    texel at column [x] to opaque white ([0xffffffff]) if and only if
    [i*width/N <= x <= i*width/N + width/N] (integer division) and to fully
    transparent black ([0]) otherwise; with [width = 1024], [height = 768]
    and [N = 10], the bar of frame 0 is columns [[0,102]] and the bar of
    frame 9 is columns [[921,1023]]. *)
Theorem C1_bar_columns :
  (forall w h n : Z,
     exists s, generate w h n = Some s /\
       forall i y x, 0 <= i < n -> 0 <= y < h -> 0 <= x < w ->
         (texel_at s w h i y x = Some (Some 0xffffffff) <->
            i * w / n <= x <= i * w / n + w / n) /\
         (~ (i * w / n <= x <= i * w / n + w / n) ->
            texel_at s w h i y x = Some (Some 0))) /\
  rgba 0xffffffff = (255, 255, 255, 255) /\
  rgba 0 = (0, 0, 0, 0) /\
  (exists s, generate width height NUMIMAGES = Some s /\
     forall y x, 0 <= y < height -> 0 <= x < width ->
       (texel_at s width height 0 y x = Some (Some 0xffffffff) <->
          0 <= x <= 102) /\
       (texel_at s width height 9 y x = Some (Some 0xffffffff) <->
          921 <= x <= 1023)).
Proof.
  split; [|split; [reflexivity|split; [reflexivity|]]].
  - intros w h n.
    destruct (generate_spec w h n) as (s & E & _ & _ & _ & Hpix & _).
    exists s. split; [exact E|].
    intros i y x Hi Hy Hx.
    rewrite <- (bar_of_div w n i), <- (barw_of_div w n) by lia.
    apply texel_at_white_iff. now apply Hpix.
  - destruct (generate_spec width height NUMIMAGES)
      as (s & E & _ & _ & _ & Hpix & _).
    exists s. split; [exact E|].
    intros y x Hy Hx.
    pose proof (Hpix 0 y x ltac:(unfold NUMIMAGES; lia) Hy Hx) as H0.
    pose proof (Hpix 9 y x ltac:(unfold NUMIMAGES; lia) Hy Hx) as H9.
    apply texel_at_white_iff in H0, H9.
    destruct H0 as [H0 _], H9 as [H9 _].
    change (bar_of width NUMIMAGES 0) with 0 in H0.
    change (bar_of width NUMIMAGES 9) with 921 in H9.
    change (barw_of width NUMIMAGES) with 102 in H0, H9.
    unfold width in Hx.
    split; [rewrite H0 | rewrite H9]; lia.
Qed.

(** The statement of C1 at one texel of a small canvas: frame 1 of two
    4-column frames is white at column 3. *)
Lemma C1_bar_columns_witness :
  exists s, generate 4 1 2 = Some s /\
    texel_at s 4 1 1 0 3 = Some (Some 0xffffffff).
Proof.
  destruct (proj1 C1_bar_columns 4 1 2) as (s & E & H).
  exists s. split; [exact E|].
  apply (H 1 0 3); [lia | lia | lia |].
  change (1 * 4 / 2) with 2. change (4 / 2) with 2. lia.
Defined.

(** ** Width and overlap of the bars *)

Lemma row_of_generated (s : gen_state) (w h n i y : Z) :
  generate w h n = Some s -> 0 <= i < n -> 0 <= y < h ->
  row_of s w h i y =
  (fun x => Some (texel (bar_of w n i) (barw_of w n) x)) <$> seqZ 0 w.
Proof.
  intros E Hi Hy.
  destruct (generate_spec w h n) as (s' & E' & _ & Hlen & _ & Hpix & _).
  assert (s' = s) by congruence. subst s'.
  apply list_eq. intros k. unfold row_of.
  rewrite list_lookup_fmap.
  destruct (decide (Z.of_nat k < w)) as [Hk|Hk].
  - rewrite lookup_take_lt by lia. rewrite lookup_drop.
    rewrite lookup_seqZ_lt by lia.
    rewrite Z.add_0_l. cbn [fmap option_fmap option_map].
    transitivity (texel_at s w h i y (Z.of_nat k)); [|apply Hpix; lia].
    unfold texel_at, texel_index. f_equal.
    assert (0 <= i * w * h) by (apply Z.mul_nonneg_nonneg; nia).
    assert (0 <= y * w) by nia.
    lia.
  - rewrite lookup_take_ge by lia.
    now rewrite lookup_seqZ_ge by lia.
Qed.

(** Number of white texels among the columns [m, m + len). *)
Lemma white_count_seqZ (bar barw m : Z) (len : nat) :
  Z.of_nat (length (filter (fun c : cell => c = Some WHITE)
              ((fun x => Some (texel bar barw x)) <$> seqZ m (Z.of_nat len)))) =
  Z.max 0 (Z.min (m + Z.of_nat len - 1) (bar + barw) - Z.max m bar + 1).
Proof.
  induction len as [|len IH].
  - simpl. lia.
  - rewrite seqZ_S, fmap_app, filter_app, length_app, Nat2Z.inj_add, IH.
    simpl. unfold filter; simpl.
    destruct (decide (Some (texel bar barw (m + Z.of_nat len)) = Some WHITE))
      as [Hw|Hb].
    + assert (Hin : bar <= m + Z.of_nat len <= bar + barw)
        by (apply texel_white; congruence).
      simpl. lia.
    + assert (Hout : ~ (bar <= m + Z.of_nat len <= bar + barw)).
      { intros Hin. apply texel_white in Hin. congruence. }
      simpl. lia.
Qed.

Lemma white_columns_generated (s : gen_state) (w h n i y : Z) :
  generate w h n = Some s -> 0 <= i < n -> 0 <= y < h -> 0 <= w ->
  Z.of_nat (white_columns s w h i y) =
  Z.max 0 (Z.min (w - 1) (bar_of w n i + barw_of w n)
           - Z.max 0 (bar_of w n i) + 1).
Proof.
  intros E Hi Hy Hw. unfold white_columns.
  rewrite (row_of_generated s w h n i y E Hi Hy).
  rewrite <- (Z2Nat.id w) at 1 by exact Hw.
  rewrite white_count_seqZ. rewrite Z2Nat.id by exact Hw.
  now rewrite Z.add_0_l.
Qed.

(** C9. Both ends of the bar range are inclusive: a frame whose range
    [[i*width/N, i*width/N + width/N]] fits on the canvas has exactly
    [width/N + 1] white columns in every row, and when
    [i*width/N + width/N = (i+1)*width/N] that column is the last white
    column of frame [i] and the first white column of frame [i+1], so the
    two bars share it. *)
Theorem C9_bar_width_and_overlap (w h n : Z) :
  exists s, generate w h n = Some s /\
    (forall i y, 0 < w -> 0 <= i < n -> 0 <= y < h ->
       i * w / n + w / n <= w - 1 ->
       Z.of_nat (white_columns s w h i y) = w / n + 1) /\
    (forall i y, 0 < w -> 0 <= i -> i + 1 < n -> 0 <= y < h ->
       i * w / n + w / n = (i + 1) * w / n ->
       let c := (i + 1) * w / n in
       texel_at s w h i y c = Some (Some 0xffffffff) /\
       texel_at s w h (i + 1) y c = Some (Some 0xffffffff) /\
       (forall x, c < x < w -> texel_at s w h i y x = Some (Some 0)) /\
       (forall x, 0 <= x < c -> texel_at s w h (i + 1) y x = Some (Some 0))).
Proof.
  destruct (generate_spec w h n) as (s & E & _ & _ & _ & Hpix & _).
  exists s. split; [exact E|]. split.
  - intros i y Hw Hi Hy Hfit.
    rewrite (white_columns_generated s w h n i y E Hi Hy) by lia.
    rewrite bar_of_div, barw_of_div by lia.
    assert (0 <= i * w / n) by (apply Z.div_pos; nia).
    assert (0 <= w / n) by (apply Z.div_pos; lia).
    lia.
  - intros i y Hw Hi Hn Hy Hadj c.
    assert (Hc : 0 <= c < w).
    { unfold c. split; [apply Z.div_pos; nia|].
      apply Z.div_lt_upper_bound; nia. }
    assert (Hbw : 0 <= w / n) by (apply Z.div_pos; lia).
    assert (Hpix' : forall j x, 0 <= j < n -> 0 <= x < w ->
       (texel_at s w h j y x = Some (Some 0xffffffff) <->
          j * w / n <= x <= j * w / n + w / n) /\
       (~ (j * w / n <= x <= j * w / n + w / n) ->
          texel_at s w h j y x = Some (Some 0))).
    { intros j x Hj Hx.
      rewrite <- (bar_of_div w n j), <- (barw_of_div w n) by lia.
      apply texel_at_white_iff. now apply Hpix. }
    split; [|split; [|split]].
    + apply (Hpix' i c); lia.
    + apply (Hpix' (i + 1) c); [lia | lia |]. fold c. lia.
    + intros x Hx. apply (Hpix' i x); lia.
    + intros x Hx. apply (Hpix' (i + 1) x); [lia | lia |]. fold c. lia.
Qed.

(** C9 on two 4-column frames: the bar of frame 0 is 3 columns wide and its
    last column, 2, is white in frame 1 as well. *)
Lemma C9_bar_width_and_overlap_witness :
  exists s, generate 4 1 2 = Some s /\
    Z.of_nat (white_columns s 4 1 0 0) = 3 /\
    texel_at s 4 1 0 0 2 = Some (Some 0xffffffff) /\
    texel_at s 4 1 1 0 2 = Some (Some 0xffffffff).
Proof.
  destruct (C9_bar_width_and_overlap 4 1 2) as (s & E & Hwidth & Hshare).
  exists s. split; [exact E|]. split.
  - apply (Hwidth 0 0); [lia | lia | lia |].
    change (0 * 4 / 2) with 0. change (4 / 2) with 2. lia.
  - assert (Hadj : 0 * 4 / 2 + 4 / 2 = (0 + 1) * 4 / 2) by reflexivity.
    destruct (Hshare 0 0 ltac:(lia) ltac:(lia) ltac:(lia) ltac:(lia) Hadj)
      as (H0 & H1 & _).
    split; [exact H0 | exact H1].
Defined.

(** For the constants of [main] every frame, the last one included, has a
    bar of 103 columns, and frames 2 and 3 are a pair whose bars only
    touch: columns [[204,306]] and [[307,409]]. *)
Lemma main_bar_widths :
  exists s, generate width height NUMIMAGES = Some s /\
    forall i y, 0 <= i < NUMIMAGES -> 0 <= y < height ->
      Z.of_nat (white_columns s width height i y) = 103.
Proof.
  destruct (generate_total width height NUMIMAGES) as [s E].
  exists s. split; [exact E|]. intros i y Hi Hy.
  rewrite (white_columns_generated s _ _ _ i y E Hi Hy) by (unfold width; lia).
  rewrite bar_of_div by (unfold width, NUMIMAGES in *; lia).
  change (barw_of width NUMIMAGES) with 102.
  unfold width, NUMIMAGES in *.
  assert (0 <= i * 1024 / 10 < 922).
  { split; [apply Z.div_pos; lia|].
    apply Z.div_lt_upper_bound; lia. }
  lia.
Qed.

Lemma main_frames_2_3_disjoint (x : Z) :
  ~ (texel (bar_of width NUMIMAGES 2) (barw_of width NUMIMAGES) x = WHITE /\
     texel (bar_of width NUMIMAGES 3) (barw_of width NUMIMAGES) x = WHITE).
Proof.
  rewrite !texel_white.
  change (bar_of width NUMIMAGES 2) with 204.
  change (bar_of width NUMIMAGES 3) with 307.
  change (barw_of width NUMIMAGES) with 102. lia.
Qed.

(** * The allocation *)

(** C2, as the code has it. The generator makes one allocation, of
    [width*height*N*4] elements of type [unsigned], which is
    [width*height*N*16] bytes; for the constants of [main] that is
    125829120 bytes, four times the 31457280 bytes the [N] frames take, and
    only the first quarter is ever written. *)
Theorem C2_allocation :
  (forall w h n,
     exists s, generate w h n = Some s /\
       allocs s = [w * h * n * 4] /\
       alloc_bytes (w * h * n * 4) = w * h * n * 16) /\
  (exists s, generate width height NUMIMAGES = Some s /\
     allocs s = [31457280] /\
     length (mem s) = Z.to_nat 31457280 /\
     p s = Z.to_nat 7864320 /\
     (forall j, (p s <= j < length (mem s))%nat -> mem s !! j = Some None)) /\
  alloc_bytes (width * height * NUMIMAGES * 4) = 125829120 /\
  width * height * NUMIMAGES * 4 = 31457280.
Proof.
  split; [|split; [|split; reflexivity]].
  - intros w h n.
    destruct (generate_spec w h n) as (s & E & Ha & _).
    exists s. split; [exact E|]. split; [exact Ha|].
    unfold alloc_bytes, sizeof_unsigned. ring.
  - destruct (generate_spec width height NUMIMAGES)
      as (s & E & Ha & Hlen & Hp & _ & Hrest).
    exists s. split; [exact E|]. split; [exact Ha|]. split; [exact Hlen|].
    split; [|exact Hrest].
    rewrite Hp. unfold width, height, NUMIMAGES. lia.
Qed.

(** * Properties of the shader objects *)

Lemma compile_ok (w : world) (src : string) (sh : shader_base) :
  fst (driver_compile w (prog_type sh) src) = GL_TRUE ->
  compile w src sh =
  ([GlCompileShader (shader_obj sh); GlGetShaderiv (shader_obj sh) GL_TRUE],
   Normal tt).
Proof.
  intros Hst. unfold compile.
  destruct (driver_compile w (prog_type sh) src) as [status log].
  cbn [fst] in Hst. subst status.
  destruct (decide (GL_TRUE <> GL_TRUE)) as [Hne|_]; [now contradiction Hne|].
  reflexivity.
Qed.

Lemma compile_fails (w : world) (src : string) (sh : shader_base) :
  fst (driver_compile w (prog_type sh) src) <> GL_TRUE ->
  compile w src sh =
  ([GlCompileShader (shader_obj sh);
    GlGetShaderiv (shader_obj sh) (fst (driver_compile w (prog_type sh) src));
    GlGetShaderInfoLog (shader_obj sh) 512],
   Thrown (c_str (info_log_buffer 512
                    (snd (driver_compile w (prog_type sh) src))))).
Proof.
  intros Hst. unfold compile.
  destruct (driver_compile w (prog_type sh) src) as [status log].
  cbn [fst snd] in *.
  destruct (decide (GL_TRUE <> status)) as [_|Heq]; [reflexivity|].
  unfold GL_TRUE in *. lia.
Qed.

Lemma shader_base_new_ok (w : world) (src : string) (type : shader_kind) :
  fst (driver_compile w type src) = GL_TRUE ->
  shader_base_new w src type =
  ([GlCreateShader type (shader_name w type);
    GlShaderSource (shader_name w type) src;
    GlCompileShader (shader_name w type);
    GlGetShaderiv (shader_name w type) GL_TRUE],
   Normal (ShaderBase type (shader_name w type))).
Proof.
  intros Hst. unfold shader_base_new, answer, call.
  cbn [bind]. rewrite compile_ok by exact Hst. reflexivity.
Qed.

(** ** The compile error *)

Lemma c_str_terminated (l : list ascii) : c_str (l ++ [NUL]) = c_str l.
Proof.
  induction l as [|c l IH]; cbn [app c_str].
  - now destruct (decide (NUL = NUL)).
  - destruct (decide (c = NUL)); [reflexivity|]. now rewrite IH.
Qed.

Lemma c_str_prefix (l : list ascii) : c_str l `prefix_of` l.
Proof.
  induction l as [|c l IH]; cbn [c_str].
  - reflexivity.
  - destruct (decide (c = NUL)); [apply prefix_nil|].
    now apply prefix_cons.
Qed.

Lemma c_str_no_nul (l : list ascii) : NUL ∉ c_str l.
Proof.
  induction l as [|c l IH]; cbn [c_str].
  - apply not_elem_of_nil.
  - destruct (decide (c = NUL)); [apply not_elem_of_nil|].
    apply not_elem_of_cons. split; [congruence|exact IH].
Qed.

Lemma c_str_nonempty (l : list ascii) :
  c_str l <> [] <-> exists c rest, l = c :: rest /\ c <> NUL.
Proof.
  destruct l as [|c l]; cbn [c_str].
  - split; [congruence|]. intros (c & rest & E & _). discriminate E.
  - destruct (decide (c = NUL)) as [->|Hc].
    + split; [congruence|]. intros (c & rest & [= <- _] & Hc). congruence.
    + split; [|discriminate]. intros _. now exists c, l.
Qed.

Lemma compile_message (log : list ascii) :
  c_str (info_log_buffer 512 log) = c_str (take 511 log) /\
  (length (c_str (take 511 log)) <= 511)%nat /\
  c_str (take 511 log) `prefix_of` log.
Proof.
  split; [apply c_str_terminated|]. split.
  - etransitivity; [apply prefix_length, c_str_prefix|].
    rewrite length_take. lia.
  - etransitivity; [apply c_str_prefix|]. apply prefix_take.
Qed.

(** C4, as the code has it. [compile] raises its error if and only if the
    compile status it reads is not [GL_TRUE]; the error carries the
    driver's log as far as a 512-byte buffer holds it (at most 511
    characters, up to the first NUL), which is non-empty exactly when the
    log starts with a character other than NUL; with status [GL_TRUE],
    [compile] returns normally. *)
Theorem C4_compile_error (w : world) (src : string) (sh : shader_base) :
  ((exists what, snd (compile w src sh) = Thrown what) <->
     fst (driver_compile w (prog_type sh) src) <> GL_TRUE) /\
  (fst (driver_compile w (prog_type sh) src) <> GL_TRUE ->
     exists what,
       snd (compile w src sh) = Thrown what /\
       what = c_str (take 511 (snd (driver_compile w (prog_type sh) src))) /\
       (length what <= 511)%nat /\
       what `prefix_of` snd (driver_compile w (prog_type sh) src) /\
       (what <> [] <->
          exists c rest,
            snd (driver_compile w (prog_type sh) src) = c :: rest /\
            c <> NUL)) /\
  (fst (driver_compile w (prog_type sh) src) = GL_TRUE ->
     compile w src sh =
     ([GlCompileShader (shader_obj sh);
       GlGetShaderiv (shader_obj sh) GL_TRUE], Normal tt)).
Proof.
  split; [|split].
  - destruct (decide (fst (driver_compile w (prog_type sh) src) = GL_TRUE))
      as [Hok|Hbad].
    + rewrite compile_ok by exact Hok. cbn [snd].
      split; [intros (what & [=])|contradiction].
    + rewrite compile_fails by exact Hbad. cbn [snd].
      split; [intros _; exact Hbad|]. intros _. eexists. reflexivity.
  - intros Hbad. rewrite compile_fails by exact Hbad. cbn [snd].
    destruct (compile_message (snd (driver_compile w (prog_type sh) src)))
      as (Hmsg & Hlen & Hpre).
    eexists. split; [reflexivity|]. rewrite Hmsg.
    split; [reflexivity|]. split; [exact Hlen|]. split; [exact Hpre|].
    rewrite c_str_nonempty.
    destruct (snd (driver_compile w (prog_type sh) src)) as [|c rest].
    + split; intros (c & rest & [=] & _).
    + cbn [take]. split; intros (c' & rest' & [= <- _] & Hc); eauto.
  - apply compile_ok.
Qed.

(** C4 with a driver whose log is 600 characters long: the error carries
    the first 511. *)
Lemma C4_compile_error_witness :
  exists what,
    snd (compile (sample_world verbose_driver []) "void main( {"
           (ShaderBase GL_FRAGMENT_SHADER 2)) = Thrown what /\
    what = replicate 511 "e"%char.
Proof.
  destruct (proj1 (proj2 (C4_compile_error
              (sample_world verbose_driver []) "void main( {"
              (ShaderBase GL_FRAGMENT_SHADER 2))))
    as (what & Hthrown & Hwhat & _).
  - cbn. unfold GL_FALSE, GL_TRUE. lia.
  - exists what. split; [exact Hthrown|]. rewrite Hwhat. reflexivity.
Defined.

(** The claim of C4 that the text is never empty fails for a driver that
    rejects a source and has nothing to say: the error is raised with an
    empty message. *)
Lemma C4_empty_diagnostic :
  fst (driver_compile (sample_world silent_driver []) GL_FRAGMENT_SHADER
         "void main( {") <> GL_TRUE /\
  snd (compile (sample_world silent_driver []) "void main( {"
         (ShaderBase GL_FRAGMENT_SHADER 2)) = Thrown [].
Proof. split; [discriminate|reflexivity]. Qed.

(** * Properties of the shader program *)

Lemma program_call_run_normal (handle : Z) (vp fp : shader_base)
    (c : program_call) :
  snd (program_call_run handle vp fp c) = Normal tt.
Proof. now destruct c. Qed.

Lemma program_chain_cons (handle : Z) (vp fp : shader_base)
    (c : program_call) (cs : list program_call) :
  program_chain handle vp fp (c :: cs) =
  (fst (program_call_run handle vp fp c) ++ fst (program_chain handle vp fp cs),
   snd (program_chain handle vp fp cs)).
Proof.
  cbn [program_chain]. unfold bind.
  pose proof (program_call_run_normal handle vp fp c) as Hn.
  destruct (program_call_run handle vp fp c) as [t r]. cbn [snd fst] in *.
  subst r. now destruct (program_chain handle vp fp cs).
Qed.

Lemma program_chain_app (handle : Z) (vp fp : shader_base)
    (cs1 cs2 : list program_call) :
  program_chain handle vp fp (cs1 ++ cs2) =
  (fst (program_chain handle vp fp cs1) ++ fst (program_chain handle vp fp cs2),
   snd (program_chain handle vp fp cs2)).
Proof.
  induction cs1 as [|c cs1 IH].
  - cbn [app program_chain ret fst]. now destruct (program_chain handle vp fp cs2).
  - cbn [app]. rewrite !program_chain_cons, IH. cbn [fst snd].
    now rewrite app_assoc.
Qed.

Lemma program_chain_binds (handle : Z) (vp fp : shader_base)
    (cs : list program_call) (e : event) :
  e ∈ fst (program_chain handle vp fp cs) ->
  forall prog n name, e = GlBindFragDataLocation prog n name ->
  prog = handle /\ n = 0 /\ name = "outColor"%string.
Proof.
  induction cs as [|c cs IH]; intros Hin prog n name ->.
  - cbn in Hin. now apply elem_of_nil in Hin.
  - rewrite program_chain_cons in Hin. cbn [fst] in Hin.
    apply elem_of_app in Hin as [Hin|Hin].
    + destruct c; cbn in Hin;
        repeat (apply elem_of_cons in Hin as [Hin|Hin];
                [try discriminate Hin|]);
        try (now apply elem_of_nil in Hin).
      injection Hin as -> -> ->. auto.
    + now apply (IH Hin prog n name).
Qed.

(** C7. Attaching the fragment shader binds the fragment output to the one
    fixed name ["outColor"], right after the shader is attached and so
    before the program is linked, whether the fragment shader is attached
    before or after the vertex shader. *)
Theorem C7_fragment_output_bound (handle : Z) (vp fp : shader_base) :
  attach_fragment handle fp =
    ([GlAttachShader handle (shader_obj fp);
      GlBindFragDataLocation handle 0 "outColor"], Normal tt) /\
  program_chain handle vp fp
      [CallAttachVertex; CallAttachFragment; CallLink; CallUse] =
    ([GlAttachShader handle (shader_obj vp);
      GlAttachShader handle (shader_obj fp);
      GlBindFragDataLocation handle 0 "outColor";
      GlLinkProgram handle; GlUseProgram handle], Normal tt) /\
  program_chain handle vp fp
      [CallAttachFragment; CallAttachVertex; CallLink; CallUse] =
    ([GlAttachShader handle (shader_obj fp);
      GlBindFragDataLocation handle 0 "outColor";
      GlAttachShader handle (shader_obj vp);
      GlLinkProgram handle; GlUseProgram handle], Normal tt) /\
  (forall pre mid post, exists t1 t2 t3,
     fst (program_chain handle vp fp
            (pre ++ CallAttachFragment :: mid ++ CallLink :: post)) =
     t1 ++ [GlAttachShader handle (shader_obj fp);
            GlBindFragDataLocation handle 0 "outColor"]
        ++ t2 ++ GlLinkProgram handle :: t3) /\
  (forall cs prog n name,
     GlBindFragDataLocation prog n name ∈ fst (program_chain handle vp fp cs) ->
     prog = handle /\ n = 0 /\ name = "outColor"%string).
Proof.
  split; [reflexivity|]. split; [reflexivity|]. split; [reflexivity|]. split.
  - intros pre mid post.
    exists (fst (program_chain handle vp fp pre)),
           (fst (program_chain handle vp fp mid)),
           (fst (program_chain handle vp fp post)).
    rewrite program_chain_app. cbn [fst].
    rewrite program_chain_cons. cbn [fst].
    rewrite program_chain_app. cbn [fst].
    rewrite program_chain_cons. cbn [fst].
    reflexivity.
  - intros cs prog n name Hin.
    now apply (program_chain_binds handle vp fp cs _ Hin prog n name).
Qed.

(** C7 with the fragment shader attached first: the binding still comes
    before the link. *)
Lemma C7_fragment_output_bound_witness :
  exists t1 t2 t3,
    fst (program_chain 3 (ShaderBase GL_VERTEX_SHADER 1)
           (ShaderBase GL_FRAGMENT_SHADER 2)
           ([] ++ CallAttachFragment :: [CallAttachVertex]
               ++ CallLink :: [CallUse])) =
    t1 ++ [GlAttachShader 3 2; GlBindFragDataLocation 3 0 "outColor"]
       ++ t2 ++ GlLinkProgram 3 :: t3.
Proof.
  exact (proj1 (proj2 (proj2 (proj2
           (C7_fragment_output_bound 3 (ShaderBase GL_VERTEX_SHADER 1)
              (ShaderBase GL_FRAGMENT_SHADER 2)))))
           [] [CallAttachVertex] [CallUse]).
Defined.

(** * Properties of the render loop *)

Section RenderLoop.

Variables (W H N : Z) (frame : framebuffer).

Lemma loop_condition_spec (s : sample) :
  loop_condition s =
  (condition_events s, Normal (bool_decide (~ exit_requested s))).
Proof.
  unfold loop_condition, condition_events, exit_requested, answer, bind, ret.
  destruct (decide (key_state s <> GLFW_PRESS)) as [Hk|Hk]; simpl.
  - f_equal. f_equal. apply bool_decide_ext. lia.
  - f_equal. f_equal. symmetry. apply bool_decide_eq_false. lia.
Qed.

Lemma int_succ_below (i : Z) : i <> INT_MAX -> int_succ i = i + 1.
Proof. intros Hi. unfold int_succ. now destruct (decide (i = INT_MAX)). Qed.

Lemma int_succ_wraps : int_succ INT_MAX = INT_MIN.
Proof. reflexivity. Qed.

Lemma loop_body_any (i : Z) :
  loop_body W H N frame i = (body_events W H N frame i, Normal (int_succ i)).
Proof. reflexivity. Qed.

Lemma loop_body_spec (i : Z) :
  i <> INT_MAX ->
  loop_body W H N frame i = (body_events W H N frame i, Normal (i + 1)).
Proof.
  intros Hi. now rewrite loop_body_any, int_succ_below by assumption.
Qed.

Lemma loop_body_overflow :
  loop_body W H N frame INT_MAX =
  (body_events W H N frame INT_MAX, Normal INT_MIN).
Proof. reflexivity. Qed.

(** One pass at any counter: the check does not read the counter. *)
Lemma iteration_any (i : Z) (s : sample) :
  iteration W H N frame i s =
  (body_events W H N frame i ++ condition_events s,
   Normal (if decide (exit_requested s) then ShuttingDown
           else Running (int_succ i))).
Proof.
  unfold iteration.
  rewrite loop_body_any. unfold bind at 1.
  rewrite loop_condition_spec. unfold bind, ret.
  rewrite app_nil_r. f_equal. f_equal.
  destruct (decide (exit_requested s)) as [He|He].
  - now rewrite bool_decide_eq_false_2 by tauto.
  - now rewrite bool_decide_eq_true_2 by assumption.
Qed.

Lemma iteration_spec (i : Z) (s : sample) :
  i <> INT_MAX ->
  iteration W H N frame i s =
  (body_events W H N frame i ++ condition_events s,
   Normal (if decide (exit_requested s) then ShuttingDown else Running (i + 1))).
Proof.
  intros Hi. now rewrite iteration_any, int_succ_below by assumption.
Qed.

Lemma render_loop_exit_any (i : Z) (s : sample) (rest : list sample) :
  exit_requested s ->
  render_loop W H N frame (s :: rest) i =
  (body_events W H N frame i ++ condition_events s, Normal tt).
Proof.
  intros He. simpl. rewrite iteration_any.
  destruct (decide (exit_requested s)); [|contradiction].
  unfold bind, ret. now rewrite app_nil_r.
Qed.

Lemma render_loop_again_any (i : Z) (s : sample) (rest : list sample) :
  ~ exit_requested s ->
  render_loop W H N frame (s :: rest) i =
  ((body_events W H N frame i ++ condition_events s)
     ++ fst (render_loop W H N frame rest (int_succ i)),
   snd (render_loop W H N frame rest (int_succ i))).
Proof.
  intros He. simpl. rewrite iteration_any.
  destruct (decide (exit_requested s)); [contradiction|].
  unfold bind. now destruct (render_loop W H N frame rest (int_succ i)).
Qed.

Lemma render_loop_exit (i : Z) (s : sample)
    (rest : list sample) :
  i <> INT_MAX -> exit_requested s ->
  render_loop W H N frame (s :: rest) i =
  (body_events W H N frame i ++ condition_events s, Normal tt).
Proof. intros _ He. now apply render_loop_exit_any. Qed.

Lemma render_loop_again (i : Z) (s : sample)
    (rest : list sample) :
  i <> INT_MAX -> ~ exit_requested s ->
  render_loop W H N frame (s :: rest) i =
  ((body_events W H N frame i ++ condition_events s)
     ++ fst (render_loop W H N frame rest (i + 1)),
   snd (render_loop W H N frame rest (i + 1))).
Proof.
  intros Hi He. rewrite render_loop_again_any by assumption.
  now rewrite int_succ_below by assumption.
Qed.

(** C3. From [Running], the check at the tail of an iteration moves the loop
    to [ShuttingDown] exactly when the escape key is sampled as pressed or
    the window has signalled a close request; a close request with the key
    released is enough; otherwise the loop is [Running] again with the next
    counter and the body repeats. *)
Theorem C3_exit_condition (i : Z) (s : sample)
    (rest : list sample) :
  0 <= i < INT_MAX ->
  (snd (iteration W H N frame i s) = Normal ShuttingDown <->
     key_state s = GLFW_PRESS \/ close_flag s <> 0) /\
  (key_state s <> GLFW_PRESS -> close_flag s <> 0 ->
     snd (iteration W H N frame i s) = Normal ShuttingDown /\
     render_loop W H N frame (s :: rest) i =
       (body_events W H N frame i ++ condition_events s, Normal tt)) /\
  (~ (key_state s = GLFW_PRESS \/ close_flag s <> 0) ->
     snd (iteration W H N frame i s) = Normal (Running (i + 1)) /\
     render_loop W H N frame (s :: rest) i =
       ((body_events W H N frame i ++ condition_events s)
          ++ fst (render_loop W H N frame rest (i + 1)),
        snd (render_loop W H N frame rest (i + 1)))).
Proof.
  intros Hi. assert (Hne : i <> INT_MAX) by lia.
  rewrite iteration_spec by exact Hne. cbn [snd].
  fold (exit_requested s).
  split; [|split].
  - destruct (decide (exit_requested s)) as [He|He]; split; intros Hs;
      try assumption; try reflexivity; try discriminate; contradiction.
  - intros Hk Hc. assert (He : exit_requested s) by (right; exact Hc).
    split.
    + now destruct (decide (exit_requested s)).
    + now apply render_loop_exit.
  - intros He. split.
    + now destruct (decide (exit_requested s)).
    + now apply render_loop_again.
Qed.

(** ** Which frame an iteration uploads *)

Lemma frame_offset_mod (i : Z) :
  0 < N -> 0 <= i -> frame_offset W H N i = (i mod N) * W * H.
Proof.
  intros HN Hi. unfold frame_offset.
  now rewrite Z.rem_mod_nonneg by lia.
Qed.



Lemma upload_offsets_app (t1 t2 : list event) :
  upload_offsets (t1 ++ t2) = upload_offsets t1 ++ upload_offsets t2.
Proof. apply omap_app. Qed.

Lemma upload_offsets_iteration (i : Z) (s : sample) :
  upload_offsets (body_events W H N frame i ++ condition_events s) =
  [frame_offset W H N i].
Proof.
  rewrite upload_offsets_app. unfold condition_events.
  now destruct (decide (key_state s <> GLFW_PRESS)).
Qed.

(** A stretch of iterations without an exit request: the loop is still
    running afterwards and has uploaded one frame per iteration, in counter
    order. *)
Lemma render_loop_running (ins : list sample) :
  Forall (fun s => ~ exit_requested s) ins ->
  forall i, 0 <= i -> i + Z.of_nat (length ins) <= INT_MAX ->
  snd (render_loop W H N frame ins i) = StillRunning /\
  upload_offsets (fst (render_loop W H N frame ins i)) =
  frame_offset W H N <$> seqZ i (Z.of_nat (length ins)).
Proof.
  induction 1 as [|s ins Hs Hins IH]; intros i Hi Hlen.
  - split; reflexivity.
  - cbn [length] in Hlen.
    rewrite render_loop_again by (try assumption; lia).
    cbn [fst snd].
    destruct (IH (i + 1) ltac:(lia) ltac:(lia)) as [IHr IHt].
    split; [exact IHr|].
    rewrite upload_offsets_app, upload_offsets_iteration, IHt.
    rewrite (seqZ_cons i) by (cbn [length]; lia).
    cbn [fmap list_fmap]. f_equal. f_equal. f_equal; cbn [length]; lia.
Qed.

(** The same stretch followed by more samples. *)
Lemma render_loop_app (pre rest : list sample) :
  Forall (fun s => ~ exit_requested s) pre ->
  forall i, 0 <= i -> i + Z.of_nat (length pre) <= INT_MAX ->
  render_loop W H N frame (pre ++ rest) i =
  (fst (render_loop W H N frame pre i)
     ++ fst (render_loop W H N frame rest (i + Z.of_nat (length pre))),
   snd (render_loop W H N frame rest (i + Z.of_nat (length pre)))).
Proof.
  induction 1 as [|s pre Hs Hpre IH]; intros i Hi Hlen.
  - cbn [app length render_loop fst]. rewrite Z.add_0_r.
    now destruct (render_loop W H N frame rest i).
  - cbn [length] in Hlen. cbn [app].
    rewrite !render_loop_again by (try assumption; lia).
    rewrite (IH (i + 1)) by lia. cbn [fst snd].
    replace (i + 1 + Z.of_nat (length pre))
      with (i + Z.of_nat (length (s :: pre))) by (cbn [length]; lia).
    now rewrite <- !app_assoc.
Qed.

(** The counter stays an [int]. *)
Lemma int_succ_fits (i : Z) : fits_int i -> fits_int (int_succ i).
Proof.
  unfold fits_int, int_succ, INT_MIN, INT_MAX.
  destruct (decide (i = 2147483647)); lia.
Qed.

(** Every [glTexImage2D] of a run has the size of the frame texture and
    the offset of some value of the counter. *)
Lemma iteration_upload_events (i : Z) (s : sample) (w h off : Z) :
  GlTexImage2D w h off ∈ body_events W H N frame i ++ condition_events s ->
  w = fb_width frame /\ h = fb_height frame /\ off = frame_offset W H N i.
Proof.
  intros Hin. apply elem_of_app in Hin as [Hin|Hin].
  - unfold body_events in Hin.
    repeat (apply elem_of_cons in Hin as [Hin|Hin]; [try discriminate Hin|]).
    + injection Hin as -> -> ->. auto.
    + now apply elem_of_nil in Hin.
  - unfold condition_events in Hin.
    destruct (decide (key_state s <> GLFW_PRESS));
      repeat (apply elem_of_cons in Hin as [Hin|Hin]; [discriminate Hin|]);
      now apply elem_of_nil in Hin.
Qed.

Lemma render_loop_upload_events (ins : list sample) (w h off : Z) :
  forall i, fits_int i ->
  GlTexImage2D w h off ∈ fst (render_loop W H N frame ins i) ->
  w = fb_width frame /\ h = fb_height frame /\
  exists k, fits_int k /\ off = frame_offset W H N k.
Proof.
  induction ins as [|s ins IH]; intros i Hi Hin.
  - now apply elem_of_nil in Hin.
  - destruct (decide (exit_requested s)) as [He|He].
    + rewrite render_loop_exit_any in Hin by assumption. cbn [fst] in Hin.
      destruct (iteration_upload_events _ _ _ _ _ Hin) as (-> & -> & ->).
      split; [reflexivity|]. split; [reflexivity|]. now exists i.
    + rewrite render_loop_again_any in Hin by assumption. cbn [fst] in Hin.
      apply elem_of_app in Hin as [Hin|Hin].
      * destruct (iteration_upload_events _ _ _ _ _ Hin) as (-> & -> & ->).
        split; [reflexivity|]. split; [reflexivity|]. now exists i.
      * apply (IH (int_succ i)); [now apply int_succ_fits|exact Hin].
Qed.

(** The body of an iteration starts with the upload of its frame, whatever
    the counter holds. *)
Lemma render_loop_first_upload (s : sample) (rest : list sample) (i : Z) :
  GlTexImage2D (fb_width frame) (fb_height frame) (frame_offset W H N i)
    ∈ fst (render_loop W H N frame (s :: rest) i).
Proof.
  destruct (decide (exit_requested s)) as [He|He].
  - rewrite render_loop_exit_any by assumption. cbn [fst].
    unfold body_events. apply elem_of_app. left. apply elem_of_cons. now left.
  - rewrite render_loop_again_any by assumption. cbn [fst].
    unfold body_events. apply elem_of_app. left.
    apply elem_of_app. left. apply elem_of_cons. now left.
Qed.

(** The loop never executes [return] and never throws: it is left through
    its exit check or it is still running. *)
Lemma render_loop_result (ins : list sample) :
  forall i,
  snd (render_loop W H N frame ins i) = Normal tt \/
  snd (render_loop W H N frame ins i) = StillRunning.
Proof.
  induction ins as [|s ins IH]; intros i.
  - right; reflexivity.
  - destruct (decide (exit_requested s)) as [He|He].
    + left. now rewrite render_loop_exit_any.
    + rewrite render_loop_again_any by assumption. apply IH.
Qed.

(** ** Bounds of the upload *)

Lemma frame_offset_bounds (i : Z) :
  0 <= W -> 0 <= H -> 0 < N -> 0 <= i ->
  0 <= frame_offset W H N i /\
  frame_offset W H N i + W * H <= W * H * N.
Proof.
  intros HW HH HN Hi. rewrite frame_offset_mod by lia.
  pose proof (Z.mod_pos_bound i N HN) as Hm.
  assert (0 <= W * H) by nia.
  split; [|]; nia.
Qed.

End RenderLoop.

(** C3 on the first iteration with the key released and the close flag
    set. *)
Lemma C3_exit_condition_witness :
  snd (iteration 1024 768 10 (Framebuffer 1 1024 768) 0
         (Sample GLFW_RELEASE 1)) = Normal ShuttingDown.
Proof.
  apply (C3_exit_condition 1024 768 10 (Framebuffer 1 1024 768) 0
           (Sample GLFW_RELEASE 1) []).
  - unfold INT_MAX. lia.
  - simpl. unfold GLFW_RELEASE, GLFW_PRESS. lia.
  - simpl. lia.
Defined.

(** * Properties of [main] *)

(** Steps through the start of [main]: the generator has run, and each of
    the three checks goes the way the hypotheses say. *)
Ltac take_branch :=
  match goal with
  | |- context [decide ?P] =>
      destruct (decide P); [try contradiction | try contradiction]
  end.
Ltac enter_main W H N :=
  unfold flipbook; destruct (generate_total W H N) as [? ->];
  unfold answer; cbn [bind].
Ltac pass_glfwInit := take_branch; unfold calls; cbn [bind].
Ltac pass_window := take_branch; unfold call at 1; cbn [bind].
Ltac pass_glewInit := take_branch; unfold call at 1 2; cbn [bind].

(** Once the libraries are up and both shaders compile, a run is the setup,
    the loop, and, if the loop is left, the shutdown with exit status 0. *)
Lemma flipbook_started (W H N : Z) (w : world) :
  starts w -> shaders_compile w ->
  flipbook W H N w =
  let loop := render_loop W H N (Framebuffer (texture_name w) W H)
                (samples w) 0 in
  match snd loop with
  | Normal _ =>
      (setup_events W H w ++ fst loop ++ shutdown_events w, Returned 0)
  | r => (setup_events W H w ++ fst loop, r)
  end.
Proof.
  intros (Hinit & Hwin & Hglew) (Hvs & Hfs).
  enter_main W H N. pass_glfwInit. pass_window. pass_glewInit.
  unfold vertex_shader, scoped at 1.
  rewrite (shader_base_new_ok w vertex_prog GL_VERTEX_SHADER Hvs). cbn [bind].
  unfold fragment_shader, scoped at 1.
  rewrite (shader_base_new_ok w fragment_prog GL_FRAGMENT_SHADER Hfs).
  cbn [bind].
  unfold scoped, shader_program_new, framebuffer_new, answer, attach_vertex,
    attach_fragment, shader_attach, link, use, attrib, uniform,
    framebuffer_bind, call, calls, return_.
  cbn [bind shader_obj fb_handle].
  pose proof (render_loop_result W H N (Framebuffer (texture_name w) W H)
                (samples w) 0) as Hres.
  destruct (render_loop W H N (Framebuffer (texture_name w) W H) (samples w) 0)
    as [t r].
  cbn zeta. cbn [fst snd] in *.
  destruct r as [[]|code|what| |];
    try (destruct Hres as [Hres|Hres]; discriminate Hres);
    cbn -[vertex_prog fragment_prog newline String.append];
    rewrite <- ?app_assoc; reflexivity.
Qed.

(** The three early returns. *)
Lemma flipbook_glfw_fails (W H N : Z) (w : world) :
  glfwInit_result w = 0 ->
  flipbook W H N w =
  ([GlfwInit; Fprintf_stderr msg_glfw; Getchar], Returned (-1)).
Proof.
  intros Hinit. enter_main W H N. take_branch. reflexivity.
Qed.

Lemma flipbook_window_fails (W H N : Z) (w : world) :
  glfwInit_result w <> 0 -> glfwCreateWindow_result w = NULL ->
  exists t,
    flipbook W H N w = (t ++ [Cerr msg_window; GlfwTerminate], Returned (-1)) /\
    created t = [] /\ released t = [] /\ upload_offsets t = [].
Proof.
  intros Hinit Hwin. enter_main W H N. pass_glfwInit. take_branch.
  eexists [_; _; _; _; _; _; _]. repeat split; reflexivity.
Qed.

Lemma flipbook_glew_fails (W H N : Z) (w : world) :
  glfwInit_result w <> 0 -> glfwCreateWindow_result w <> NULL ->
  glewInit_result w <> GLEW_OK ->
  exists t,
    flipbook W H N w = (t ++ [Cerr msg_glew; GlfwTerminate], Returned (-1)) /\
    created t = [] /\ released t = [] /\ upload_offsets t = [].
Proof.
  intros Hinit Hwin Hglew. enter_main W H N. pass_glfwInit. pass_window.
  take_branch.
  eexists [_; _; _; _; _; _; _; _; _]. repeat split; reflexivity.
Qed.

(** A shader that does not compile ends [main] with the exception of
    [compile]; nothing catches it. *)
Lemma flipbook_shader_fails (W H N : Z) (w : world) :
  starts w -> ~ shaders_compile w ->
  exists t what,
    flipbook W H N w = (t, Thrown what) /\ upload_offsets t = [].
Proof.
  intros (Hinit & Hwin & Hglew) Hsh.
  enter_main W H N. pass_glfwInit. pass_window. pass_glewInit.
  destruct (decide (fst (driver_compile w GL_VERTEX_SHADER vertex_prog) = GL_TRUE))
    as [Hvs|Hvs].
  - destruct (decide (fst (driver_compile w GL_FRAGMENT_SHADER fragment_prog)
                      = GL_TRUE)) as [Hfs|Hfs].
    { contradiction Hsh. now split. }
    unfold vertex_shader, scoped at 1.
    rewrite (shader_base_new_ok w vertex_prog GL_VERTEX_SHADER Hvs). cbn [bind].
    unfold fragment_shader, scoped at 1, shader_base_new, answer, call.
    cbn [bind].
    rewrite (compile_fails w fragment_prog
               (ShaderBase GL_FRAGMENT_SHADER (shader_name w GL_FRAGMENT_SHADER)))
      by exact Hfs.
    cbn [bind]. eexists _, _. split; reflexivity.
  - unfold vertex_shader, scoped at 1, shader_base_new, answer, call.
    cbn [bind].
    rewrite (compile_fails w vertex_prog
               (ShaderBase GL_VERTEX_SHADER (shader_name w GL_VERTEX_SHADER)))
      by exact Hvs.
    cbn [bind]. eexists _, _. split; reflexivity.
Qed.

(** The exit status of a run, case by case. *)
Lemma flipbook_exit_status (W H N : Z) (w : world) :
  exit_status (flipbook W H N w) =
  if decide (starts w) then
    if decide (shaders_compile w) then
      match snd (render_loop W H N (Framebuffer (texture_name w) W H)
                   (samples w) 0) with
      | Normal _ => Some 0
      | _ => None
      end
    else None
  else Some (-1).
Proof.
  destruct (decide (starts w)) as [Hst|Hst].
  - destruct (decide (shaders_compile w)) as [Hsh|Hsh].
    + rewrite flipbook_started by assumption. cbn zeta.
      pose proof (render_loop_result W H N (Framebuffer (texture_name w) W H)
                    (samples w) 0) as Hres.
      destruct (snd (render_loop W H N (Framebuffer (texture_name w) W H)
                       (samples w) 0)) as [[]|code|what| |];
        try reflexivity;
        destruct Hres as [Hres|Hres]; discriminate Hres.
    + destruct (flipbook_shader_fails W H N w Hst Hsh) as (t & what & -> & _).
      reflexivity.
  - unfold starts in Hst.
    destruct (decide (glfwInit_result w = 0)) as [Hinit|Hinit].
    { now rewrite flipbook_glfw_fails. }
    destruct (decide (glfwCreateWindow_result w = NULL)) as [Hwin|Hwin].
    { destruct (flipbook_window_fails W H N w Hinit Hwin) as (t & -> & _).
      reflexivity. }
    destruct (decide (glewInit_result w = GLEW_OK)) as [Hglew|Hglew].
    { contradiction Hst. auto. }
    destruct (flipbook_glew_fails W H N w Hinit Hwin Hglew) as (t & -> & _).
    reflexivity.
Qed.

(** A run whose samples bring an exit request after finitely many
    iterations leaves the loop at that sample. *)
Lemma render_loop_leaves (W H N : Z) (frame : framebuffer)
    (pre : list sample) (s : sample) (rest : list sample) :
  Forall (fun s => ~ exit_requested s) pre ->
  Z.of_nat (length pre) < INT_MAX ->
  exit_requested s ->
  render_loop W H N frame (pre ++ s :: rest) 0 =
  (fst (render_loop W H N frame pre 0)
     ++ body_events W H N frame (Z.of_nat (length pre)) ++ condition_events s,
   Normal tt).
Proof.
  intros Hpre Hlen He.
  rewrite render_loop_app by (try assumption; lia).
  rewrite Z.add_0_l.
  rewrite render_loop_exit by (try assumption; lia).
  reflexivity.
Qed.

(** C5. The process exits with status 0 on a normal exit, whether the
    escape key or the close request ended the loop, and with status -1 in
    exactly three cases: [glfwInit] fails, the window cannot be created, or
    [glewInit] fails. *)
Theorem C5_exit_status (w : world) :
  (glfwInit_result w = 0 -> exit_status (main w) = Some (-1)) /\
  (glfwCreateWindow_result w = NULL -> exit_status (main w) = Some (-1)) /\
  (glewInit_result w <> GLEW_OK -> exit_status (main w) = Some (-1)) /\
  (exit_status (main w) = Some (-1) <->
     glfwInit_result w = 0 \/ glfwCreateWindow_result w = NULL \/
     glewInit_result w <> GLEW_OK) /\
  (forall code, exit_status (main w) = Some code -> code = 0 \/ code = -1) /\
  (forall pre s rest,
     starts w -> shaders_compile w ->
     samples w = pre ++ s :: rest ->
     Forall (fun s => ~ exit_requested s) pre ->
     Z.of_nat (length pre) < INT_MAX ->
     key_state s = GLFW_PRESS \/ close_flag s <> 0 ->
     exit_status (main w) = Some 0).
Proof.
  unfold main. rewrite flipbook_exit_status.
  assert (Hfail : ~ starts w <->
            glfwInit_result w = 0 \/ glfwCreateWindow_result w = NULL \/
            glewInit_result w <> GLEW_OK).
  { unfold starts, NULL, GLEW_OK. lia. }
  destruct (decide (starts w)) as [Hst|Hst].
  - assert (Hnot : ~ (glfwInit_result w = 0 \/
                      glfwCreateWindow_result w = NULL \/
                      glewInit_result w <> GLEW_OK)) by tauto.
    split; [tauto|]. split; [tauto|]. split; [tauto|].
    destruct (decide (shaders_compile w)) as [Hsh|Hsh].
    + split; [|split].
      * split; [|tauto].
        destruct (snd (render_loop _ _ _ _ _ _)); discriminate.
      * intros code.
        destruct (snd (render_loop _ _ _ _ _ _)); intros [= <-] || discriminate.
        now left.
      * intros pre s rest _ _ Hsamples Hpre Hlen He.
        rewrite Hsamples, render_loop_leaves by assumption. reflexivity.
    + split; [|split].
      * split; [discriminate|tauto].
      * discriminate.
      * tauto.
  - split; [reflexivity|]. split; [reflexivity|]. split; [reflexivity|].
    split; [tauto|]. split.
    + intros code [= <-]. now right.
    + tauto.
Qed.

(** C5 on a run whose second sample carries a close request. *)
Lemma C5_exit_status_witness :
  exit_status (main (sample_world accepting_driver
                       [Sample GLFW_RELEASE 0; Sample GLFW_RELEASE 1])) = Some 0.
Proof.
  destruct (C5_exit_status (sample_world accepting_driver
              [Sample GLFW_RELEASE 0; Sample GLFW_RELEASE 1]))
    as (_ & _ & _ & _ & _ & Hexit).
  apply (Hexit [Sample GLFW_RELEASE 0] (Sample GLFW_RELEASE 1) []).
  - unfold starts, sample_world, NULL, GLEW_OK. cbn. lia.
  - split; reflexivity.
  - reflexivity.
  - repeat constructor. unfold exit_requested, GLFW_PRESS, GLFW_RELEASE.
    cbn. lia.
  - cbn. unfold INT_MAX. lia.
  - right. cbn. lia.
Defined.

(** * Acquisition and release of GPU objects *)

Lemma created_app (t1 t2 : list event) :
  created (t1 ++ t2) = created t1 ++ created t2.
Proof. apply omap_app. Qed.

Lemma released_app (t1 t2 : list event) :
  released (t1 ++ t2) = released t1 ++ released t2.
Proof. apply omap_app. Qed.

Lemma render_loop_no_resources (W H N : Z) (frame : framebuffer)
    (ins : list sample) :
  forall i,
  created (fst (render_loop W H N frame ins i)) = [] /\
  released (fst (render_loop W H N frame ins i)) = [].
Proof.
  assert (Hiter : forall i s,
    created (body_events W H N frame i ++ condition_events s) = [] /\
    released (body_events W H N frame i ++ condition_events s) = []).
  { intros i s. unfold condition_events.
    now destruct (decide (key_state s <> GLFW_PRESS)). }
  induction ins as [|s ins IH]; intros i.
  - split; reflexivity.
  - destruct (decide (exit_requested s)) as [He|He].
    + rewrite render_loop_exit_any by assumption. apply Hiter.
    + rewrite render_loop_again_any by assumption. cbn [fst].
      destruct (Hiter i s) as [Hc Hr].
      destruct (IH (int_succ i)) as [IHc IHr].
      rewrite (created_app (body_events W H N frame i ++ condition_events s)).
      rewrite (released_app (body_events W H N frame i ++ condition_events s)).
      rewrite Hc, Hr, IHc, IHr. split; reflexivity.
Qed.

(** C8. On a run that reaches [ShuttingDown], every GPU object created
    during setup (the vertex-array object, the two shaders, the program, the
    two buffers and the texture) is released exactly once: the buffers and
    the vertex-array object by the three calls after the loop, the wrapped
    handles by their destructors when [main] returns. *)
Theorem C8_resources_released (w : world) (pre : list sample) (s : sample)
    (rest : list sample) :
  starts w -> shaders_compile w ->
  samples w = pre ++ s :: rest ->
  Forall (fun s => ~ exit_requested s) pre ->
  Z.of_nat (length pre) < INT_MAX ->
  exit_requested s ->
  exists t0,
    main w = (t0 ++ explicit_releases w ++ [GlfwTerminate]
                 ++ scope_exit_releases w, Returned 0) /\
    created t0 = setup_resources w /\
    released t0 = [] /\
    created (fst (main w)) = setup_resources w /\
    released (fst (main w)) = shutdown_resources w /\
    released (explicit_releases w) =
      [Buffer (ebo_name w); Buffer (vbo_name w); VertexArray (vao_name w)] /\
    released (scope_exit_releases w) =
      [Texture (texture_name w); Program (program_name w);
       Shader (shader_name w GL_FRAGMENT_SHADER);
       Shader (shader_name w GL_VERTEX_SHADER)] /\
    released (fst (main w)) ≡ₚ created (fst (main w)).
Proof.
  intros Hst Hsh Hsamples Hpre Hlen He.
  unfold main. rewrite flipbook_started by assumption.
  rewrite Hsamples, render_loop_leaves by assumption.
  cbn zeta. cbn [fst snd].
  set (frame := Framebuffer (texture_name w) width height).
  set (loop := fst (render_loop width height NUMIMAGES frame pre 0)
                 ++ body_events width height NUMIMAGES frame
                      (Z.of_nat (length pre)) ++ condition_events s).
  assert (Hloop : created loop = [] /\ released loop = []).
  { pose proof (render_loop_no_resources width height NUMIMAGES frame
                  (pre ++ s :: rest) 0) as Hnone.
    rewrite render_loop_leaves in Hnone by assumption. exact Hnone. }
  destruct Hloop as [Hlc Hlr].
  assert (Hc0 : created (setup_events width height w ++ loop) = setup_resources w).
  { rewrite created_app, Hlc. reflexivity. }
  assert (Hr0 : released (setup_events width height w ++ loop) = []).
  { rewrite released_app, Hlr. reflexivity. }
  assert (Hc : created (setup_events width height w ++ loop ++ shutdown_events w)
               = setup_resources w).
  { rewrite app_assoc, created_app, Hc0. reflexivity. }
  assert (Hr : released (setup_events width height w ++ loop ++ shutdown_events w)
               = shutdown_resources w).
  { rewrite app_assoc, released_app, Hr0. reflexivity. }
  exists (setup_events width height w ++ loop).
  split; [now rewrite <- app_assoc|].
  split; [exact Hc0|]. split; [exact Hr0|].
  split; [exact Hc|]. split; [exact Hr|].
  split; [reflexivity|]. split; [reflexivity|].
  rewrite Hc, Hr. unfold shutdown_resources, setup_resources.
  solve_Permutation.
Qed.

(** C8 on a run that is closed by the escape key in its first iteration. *)
Lemma C8_resources_released_witness :
  released (fst (main (sample_world accepting_driver [Sample GLFW_PRESS 0]))) =
  [Buffer 2; Buffer 1; VertexArray 1; Texture 1; Program 3; Shader 2; Shader 1].
Proof.
  destruct (C8_resources_released
              (sample_world accepting_driver [Sample GLFW_PRESS 0])
              [] (Sample GLFW_PRESS 0) [])
    as (t0 & _ & _ & _ & _ & Hreleased & _).
  - unfold starts, sample_world, NULL, GLEW_OK. cbn. lia.
  - split; reflexivity.
  - reflexivity.
  - constructor.
  - cbn. unfold INT_MAX. lia.
  - left. reflexivity.
  - exact Hreleased.
Defined.

(** * Uploads of a whole run *)

Lemma flipbook_uploads_started (W H N : Z) (w : world) :
  starts w -> shaders_compile w ->
  upload_offsets (fst (flipbook W H N w)) =
  upload_offsets (fst (render_loop W H N (Framebuffer (texture_name w) W H)
                         (samples w) 0)) /\
  (snd (render_loop W H N (Framebuffer (texture_name w) W H) (samples w) 0)
     = StillRunning ->
   snd (flipbook W H N w) = StillRunning).
Proof.
  intros Hst Hsh. rewrite flipbook_started by assumption. cbn zeta.
  destruct (render_loop W H N (Framebuffer (texture_name w) W H) (samples w) 0)
    as [t r].
  cbn [fst snd].
  destruct r as [[]|code|what| |]; cbn [fst snd];
    rewrite ?upload_offsets_app; cbn [app];
    rewrite ?app_nil_r; (split; [reflexivity|]); congruence.
Qed.

Lemma no_upload_event (t : list event) (w h off : Z) :
  upload_offsets t = [] -> GlTexImage2D w h off ∉ t.
Proof.
  intros Hnone Hin.
  assert (Hoff : off ∈ upload_offsets t).
  { unfold upload_offsets. apply list_elem_of_omap.
    exists (GlTexImage2D w h off). split; [exact Hin|reflexivity]. }
  rewrite Hnone in Hoff. now apply elem_of_nil in Hoff.
Qed.

(** The uploads of a whole run of [main] are those of its loop: each has
    the size of the canvas and the offset of some value of the counter. *)
Lemma flipbook_upload_events (W H N : Z) (wd : world) (w h off : Z) :
  GlTexImage2D w h off ∈ fst (flipbook W H N wd) ->
  w = W /\ h = H /\ exists k, fits_int k /\ off = frame_offset W H N k.
Proof.
  intros Hin.
  assert (Hfail : forall t, upload_offsets t = [] ->
            GlTexImage2D w h off ∈ t -> False).
  { intros t Hnone Hin'. now apply (no_upload_event t w h off Hnone). }
  destruct (decide (starts wd)) as [Hst|Hst].
  - destruct (decide (shaders_compile wd)) as [Hsh|Hsh].
    + rewrite flipbook_started in Hin by assumption. cbn zeta in Hin.
      set (frame := Framebuffer (texture_name wd) W H) in *.
      assert (Hloop : GlTexImage2D w h off ∈
                fst (render_loop W H N frame (samples wd) 0)).
      { destruct (snd (render_loop W H N frame (samples wd) 0));
          cbn [fst] in Hin;
          apply elem_of_app in Hin as [Hin|Hin];
          try (exfalso; now apply (Hfail (setup_events W H wd)));
          try exact Hin.
        apply elem_of_app in Hin as [Hin|Hin]; [exact Hin|].
        exfalso. now apply (Hfail (shutdown_events wd)). }
      apply (render_loop_upload_events W H N frame (samples wd) w h off 0);
        [unfold fits_int, INT_MIN, INT_MAX; lia|exact Hloop].
    + destruct (flipbook_shader_fails W H N wd Hst Hsh)
        as (t & what & E & Hup).
      rewrite E in Hin. exfalso. now apply (Hfail t).
  - exfalso. unfold starts in Hst.
    destruct (decide (glfwInit_result wd = 0)) as [Hinit|Hinit].
    { rewrite flipbook_glfw_fails in Hin by assumption. cbn [fst] in Hin.
      now apply (Hfail [GlfwInit; Fprintf_stderr msg_glfw; Getchar]). }
    destruct (decide (glfwCreateWindow_result wd = NULL)) as [Hwin|Hwin].
    { destruct (flipbook_window_fails W H N wd Hinit Hwin)
        as (t & E & _ & _ & Hup).
      rewrite E in Hin. cbn [fst] in Hin.
      apply (Hfail (t ++ [Cerr msg_window; GlfwTerminate])); [|exact Hin].
      rewrite upload_offsets_app, Hup. reflexivity. }
    destruct (decide (glewInit_result wd = GLEW_OK)) as [Hglew|Hglew].
    { contradiction Hst. auto. }
    destruct (flipbook_glew_fails W H N wd Hinit Hwin Hglew)
      as (t & E & _ & _ & Hup).
    rewrite E in Hin. cbn [fst] in Hin.
    apply (Hfail (t ++ [Cerr msg_glew; GlfwTerminate])); [|exact Hin].
    rewrite upload_offsets_app, Hup. reflexivity.
Qed.




(** What the loop does is part of what [main] does. *)
Lemma flipbook_loop_events (W H N : Z) (w : world) (e : event) :
  starts w -> shaders_compile w ->
  e ∈ fst (render_loop W H N (Framebuffer (texture_name w) W H) (samples w) 0) ->
  e ∈ fst (flipbook W H N w).
Proof.
  intros Hst Hsh Hin. rewrite flipbook_started by assumption. cbn zeta.
  destruct (snd (render_loop _ _ _ _ _ _)); cbn [fst];
    apply elem_of_app; right; try exact Hin.
  apply elem_of_app. now left.
Qed.

(** A stretch without an exit request that takes the counter to [INT_MAX],
    and one more iteration without one: the counter wraps, and the loop goes
    on from [INT_MIN]. *)
Lemma render_loop_wraps (W H N : Z) (frame : framebuffer)
    (pre : list sample) (s : sample) (rest : list sample) (i : Z) :
  0 <= i ->
  i + Z.of_nat (length pre) = INT_MAX ->
  Forall (fun s => ~ exit_requested s) pre ->
  ~ exit_requested s ->
  render_loop W H N frame (pre ++ s :: rest) i =
  (fst (render_loop W H N frame pre i)
     ++ (body_events W H N frame INT_MAX ++ condition_events s)
     ++ fst (render_loop W H N frame rest INT_MIN),
   snd (render_loop W H N frame rest INT_MIN)).
Proof.
  intros Hi Hlen Hpre Hs.
  rewrite render_loop_app by (try assumption; lia).
  rewrite Hlen, render_loop_again_any by assumption.
  rewrite int_succ_wraps. reflexivity.
Qed.

(** An exit request ends the loop at whatever value the counter has. *)
Lemma render_loop_leaves_any (W H N : Z) (frame : framebuffer)
    (pre : list sample) (s : sample) (rest : list sample) :
  Forall (fun s => ~ exit_requested s) pre ->
  exit_requested s ->
  forall i, snd (render_loop W H N frame (pre ++ s :: rest) i) = Normal tt.
Proof.
  intros Hpre He. induction Hpre as [|s0 pre Hs0 Hpre IH]; intros i; cbn [app].
  - now rewrite render_loop_exit_any.
  - rewrite render_loop_again_any by assumption. apply IH.
Qed.

(** The samples of the patient run. *)
Lemma long_run_idle :
  Forall (fun s => ~ exit_requested s) (replicate (Z.to_nat INT_MAX) idle) /\
  Z.of_nat (length (replicate (Z.to_nat INT_MAX) idle)) = INT_MAX /\
  ~ exit_requested idle.
Proof.
  assert (Hidle : ~ exit_requested idle).
  { unfold exit_requested, idle, GLFW_PRESS, GLFW_RELEASE.
    cbn [key_state close_flag]. lia. }
  split; [|split].
  - apply Forall_replicate. exact Hidle.
  - rewrite length_replicate. apply Z2Nat.id. unfold INT_MAX. lia.
  - exact Hidle.
Qed.

(** C10. For every non-negative counter [i] the upload of an iteration reads
    exactly the elements [(i mod N)*width*height] up to, not including,
    [(i mod N + 1)*width*height], and that range lies inside the allocation
    (inside its written part, even). The unbounded increment does not keep
    the counter non-negative, though: the [++i] of the iteration at [INT_MAX]
    leaves [INT_MIN] in it, [INT_MIN % NUMIMAGES] is [-8], and the upload of
    the next iteration starts 6291456 elements before the buffer. A run of
    [main] that sees no exit request in its first 2^31 checks passes that
    address to [glTexImage2D]: an out-of-bounds read of the frame data. *)
Theorem C10_upload_out_of_bounds :
  exists images, generate width height NUMIMAGES = Some images /\
    (forall i, 0 <= i ->
       frame_offset width height NUMIMAGES i
         = (i mod NUMIMAGES) * width * height /\
       frame_offset width height NUMIMAGES i + width * height
         = (i mod NUMIMAGES + 1) * width * height /\
       upload_in_bounds images width height
         (frame_offset width height NUMIMAGES i) /\
       frame_offset width height NUMIMAGES i + width * height
         <= Z.of_nat (p images)) /\
    (forall frame,
       loop_body width height NUMIMAGES frame INT_MAX =
       (body_events width height NUMIMAGES frame INT_MAX, Normal INT_MIN)) /\
    frame_offset width height NUMIMAGES INT_MIN = -6291456 /\
    ~ upload_in_bounds images width height
        (frame_offset width height NUMIMAGES INT_MIN) /\
    (forall w pre s0 s1 rest,
       starts w -> shaders_compile w ->
       samples w = pre ++ s0 :: s1 :: rest ->
       Forall (fun s => ~ exit_requested s) pre ->
       Z.of_nat (length pre) = INT_MAX ->
       ~ exit_requested s0 ->
       GlTexImage2D width height (frame_offset width height NUMIMAGES INT_MIN)
         ∈ fst (main w)) /\
    GlTexImage2D width height (-6291456) ∈ fst (main patient_world).
Proof.
  destruct (generate_spec width height NUMIMAGES) as (s & E & _ & Hlen & Hp & _).
  exists s. split; [exact E|].
  assert (HW : 0 <= width) by (unfold width; lia).
  assert (HH : 0 <= height) by (unfold height; lia).
  assert (HN : 0 < NUMIMAGES) by (unfold NUMIMAGES; lia).
  assert (Hwritten : Z.of_nat (p s) = width * height * NUMIMAGES).
  { rewrite Hp, !Nat2Z.inj_mul, !Z2Nat.id by lia. ring. }
  assert (Hsize : Z.of_nat (length (mem s)) = width * height * NUMIMAGES * 4).
  { rewrite Hlen, Z2Nat.id by nia. reflexivity. }
  assert (Hmin : frame_offset width height NUMIMAGES INT_MIN = -6291456)
    by reflexivity.
  assert (Hrun : forall w pre s0 s1 rest,
       starts w -> shaders_compile w ->
       samples w = pre ++ s0 :: s1 :: rest ->
       Forall (fun s => ~ exit_requested s) pre ->
       Z.of_nat (length pre) = INT_MAX ->
       ~ exit_requested s0 ->
       GlTexImage2D width height (frame_offset width height NUMIMAGES INT_MIN)
         ∈ fst (main w)).
  { intros w pre s0 s1 rest Hst Hsh Hsamples Hpre Hpl Hs0.
    unfold main. apply flipbook_loop_events; try assumption.
    rewrite Hsamples, render_loop_wraps by (try assumption; lia).
    cbn [fst]. apply elem_of_app. right. apply elem_of_app. right.
    apply (render_loop_first_upload width height NUMIMAGES
             (Framebuffer (texture_name w) width height) s1 rest INT_MIN). }
  split; [|split; [|split; [|split; [|split]]]].
  - intros i Hi.
    destruct (frame_offset_bounds width height NUMIMAGES i HW HH HN Hi)
      as [Hlo Hhi].
    split; [now apply frame_offset_mod|].
    split; [rewrite frame_offset_mod by lia; ring|].
    split; [|rewrite Hwritten; exact Hhi].
    unfold upload_in_bounds. split; [exact Hlo|]. rewrite Hsize. nia.
  - intros frame. reflexivity.
  - exact Hmin.
  - rewrite Hmin. unfold upload_in_bounds. lia.
  - exact Hrun.
  - rewrite <- Hmin.
    destruct long_run_idle as (Hpre & Hpl & Hidle).
    apply (Hrun patient_world (replicate (Z.to_nat INT_MAX) idle)
             idle idle []); try assumption.
    + unfold starts, patient_world, sample_world, NULL, GLEW_OK.
      cbn [glfwInit_result glfwCreateWindow_result glewInit_result]. lia.
    + split; reflexivity.
    + reflexivity.
Qed.


(** * Further properties of the image generator *)

(** The start of the next bar is the end of this one or the column after
    it. *)
Lemma bar_step (w n i : Z) :
  0 <= w -> 0 < n -> 0 <= i ->
  i * w / n + w / n <= (i + 1) * w / n <= i * w / n + w / n + 1.
Proof.
  intros Hw Hn Hi.
  pose proof (Z.div_mod (i * w) n ltac:(lia)) as Ha.
  pose proof (Z.mod_pos_bound (i * w) n Hn) as Hra.
  pose proof (Z.div_mod w n ltac:(lia)) as Hb.
  pose proof (Z.mod_pos_bound w n Hn) as Hrb.
  replace ((i + 1) * w) with (i * w + w) by ring.
  split.
  - apply Z.div_le_lower_bound; [lia|]. nia.
  - assert ((i * w + w) / n < i * w / n + w / n + 2); [|lia].
    apply Z.div_lt_upper_bound; [lia|]. nia.
Qed.

Lemma bar_strictly_increasing (w n i j : Z) :
  0 < n <= w -> 0 <= i < j -> i * w / n < j * w / n.
Proof.
  intros Hn Hij.
  assert (i * w / n + 1 <= j * w / n); [|lia].
  rewrite <- (Z.div_add (i * w) 1 n) by lia.
  apply Z.div_le_mono; [lia|]. nia.
Qed.

Lemma bar_on_canvas (w n i : Z) :
  0 < w -> 0 <= i < n -> 0 <= i * w / n < w.
Proof.
  intros Hw Hi. split; [apply Z.div_pos; nia|].
  apply Z.div_lt_upper_bound; nia.
Qed.

(** The texels of a generated buffer, with the divisions of the
    specification. *)
Lemma generated_texels (w h n : Z) :
  exists s, generate w h n = Some s /\
    forall i y x, 0 <= i < n -> 0 <= y < h -> 0 <= x < w ->
      (texel_at s w h i y x = Some (Some WHITE) <->
         i * w / n <= x <= i * w / n + w / n) /\
      (texel_at s w h i y x = Some (Some BLACK) <->
         ~ (i * w / n <= x <= i * w / n + w / n)) /\
      texel_at s w h i y x =
        Some (Some (texel (i * w / n) (w / n) x)).
Proof.
  destruct (generate_spec w h n) as (s & E & _ & _ & _ & Hpix & _).
  exists s. split; [exact E|]. intros i y x Hi Hy Hx.
  specialize (Hpix i y x Hi Hy Hx).
  rewrite bar_of_div, barw_of_div in Hpix by lia.
  rewrite Hpix. split; [|split; [|reflexivity]].
  - rewrite <- texel_white. split; congruence.
  - rewrite <- texel_black. split; congruence.
Qed.

(** X1. The bar is vertical: within a frame the value of a texel depends on
    its column only, so all rows of a frame are the same. *)
Theorem rows_identical (w h n : Z) :
  exists s, generate w h n = Some s /\
    forall i y y', 0 <= i < n -> 0 <= y < h -> 0 <= y' < h ->
      (forall x, 0 <= x < w ->
         texel_at s w h i y x = texel_at s w h i y' x) /\
      row_of s w h i y = row_of s w h i y'.
Proof.
  destruct (generate_spec w h n) as (s & E & _ & _ & _ & Hpix & _).
  exists s. split; [exact E|]. intros i y y' Hi Hy Hy'. split.
  - intros x Hx. now rewrite !Hpix by assumption.
  - now rewrite !(row_of_generated s w h n i) by assumption.
Qed.

Lemma rows_identical_witness :
  exists s, generate 4 3 2 = Some s /\
    texel_at s 4 3 1 0 2 = texel_at s 4 3 1 2 2.
Proof.
  destruct (rows_identical 4 3 2) as (s & E & H).
  exists s. split; [exact E|].
  apply (H 1 0 2); lia.
Defined.

(** X2. Two consecutive frames share at most one column, the first column
    of the later bar, and leave no dark column between their bars: every
    column from the start of bar [i] to the end of bar [i+1] is white in
    frame [i] or in frame [i+1]. *)
Theorem consecutive_bars (w h n : Z) :
  exists s, generate w h n = Some s /\
    forall i y, 0 <= i -> i + 1 < n -> 0 <= y < h ->
      (forall x, 0 <= x < w ->
         texel_at s w h i y x = Some (Some 0xffffffff) ->
         texel_at s w h (i + 1) y x = Some (Some 0xffffffff) ->
         x = (i + 1) * w / n /\ x = i * w / n + w / n) /\
      (forall x, 0 <= x < w ->
         i * w / n <= x <= (i + 1) * w / n + w / n ->
         texel_at s w h i y x = Some (Some 0xffffffff) \/
         texel_at s w h (i + 1) y x = Some (Some 0xffffffff)).
Proof.
  destruct (generated_texels w h n) as (s & E & Hpix).
  exists s. split; [exact E|]. intros i y Hi Hn Hy. split.
  - intros x Hx H0 H1.
    apply (Hpix i y x) in H0; [|lia|lia|lia].
    apply (Hpix (i + 1) y x) in H1; [|lia|lia|lia].
    pose proof (bar_step w n i ltac:(lia) ltac:(lia) Hi). lia.
  - intros x Hx Hrange.
    pose proof (bar_step w n i ltac:(lia) ltac:(lia) Hi) as Hstep.
    destruct (Z.le_gt_cases x (i * w / n + w / n)) as [Hle|Hgt].
    + left. apply (Hpix i y x); lia.
    + right. apply (Hpix (i + 1) y x); lia.
Qed.

Lemma consecutive_bars_witness :
  exists s, generate 5 1 2 = Some s /\
    (texel_at s 5 1 0 0 2 = Some (Some 0xffffffff) \/
     texel_at s 5 1 1 0 2 = Some (Some 0xffffffff)).
Proof.
  destruct (consecutive_bars 5 1 2) as (s & E & H).
  exists s. split; [exact E|].
  destruct (H 0 0 ltac:(lia) ltac:(lia) ltac:(lia)) as [_ Hcover].
  apply (Hcover 2); [lia|].
  change (0 * 5 / 2) with 0. change ((0 + 1) * 5 / 2) with 2.
  change (5 / 2) with 2. lia.
Defined.

Lemma bars_reach (w n : Z) (k : nat) :
  0 <= w -> 0 < n ->
  forall x, 0 <= x <= Z.of_nat k * w / n + w / n ->
  exists i, 0 <= i <= Z.of_nat k /\ i * w / n <= x <= i * w / n + w / n.
Proof.
  intros Hw Hn. induction k as [|k IH]; intros x Hx.
  - exists 0. change (Z.of_nat 0) with 0 in *.
    rewrite Z.mul_0_l, Z.div_0_l in * by lia. lia.
  - pose proof (bar_step w n (Z.of_nat k) Hw Hn ltac:(lia)) as Hstep.
    replace (Z.of_nat (S k)) with (Z.of_nat k + 1) in * by lia.
    destruct (Z.le_gt_cases x (Z.of_nat k * w / n + w / n)) as [Hle|Hgt].
    + destruct (IH x ltac:(lia)) as (i & Hi & Hin).
      exists i. split; [lia|exact Hin].
    + exists (Z.of_nat k + 1). split; lia.
Qed.

(** X3. The sweep covers the canvas: the bar of frame 0 starts at column 0,
    the bar of the last frame reaches the last column, and every column is
    white in at least one frame. *)
Theorem sweep_covers_canvas (w h n : Z) :
  exists s, generate w h n = Some s /\
    forall y x, 0 < n -> 0 <= y < h -> 0 <= x < w ->
      texel_at s w h 0 y 0 = Some (Some 0xffffffff) /\
      texel_at s w h (n - 1) y (w - 1) = Some (Some 0xffffffff) /\
      exists i, 0 <= i < n /\ texel_at s w h i y x = Some (Some 0xffffffff).
Proof.
  destruct (generated_texels w h n) as (s & E & Hpix).
  exists s. split; [exact E|]. intros y x Hn Hy Hx.
  assert (Hbw : 0 <= w / n) by (apply Z.div_pos; lia).
  assert (Hlast : w - 1 <= (n - 1) * w / n + w / n).
  { pose proof (bar_step w n (n - 1) ltac:(lia) Hn ltac:(lia)) as Hstep.
    replace ((n - 1 + 1) * w) with (w * n) in Hstep by ring.
    rewrite Z.div_mul in Hstep by lia. lia. }
  pose proof (bar_on_canvas w n (n - 1) ltac:(lia) ltac:(lia)) as Hbar.
  split; [|split].
  - apply (Hpix 0 y 0); [lia|lia|lia|].
    rewrite Z.mul_0_l, Z.div_0_l by lia. lia.
  - apply (Hpix (n - 1) y (w - 1)); lia.
  - destruct (bars_reach w n (Z.to_nat (n - 1)) ltac:(lia) Hn x) as (i & Hi & Hin).
    { rewrite Z2Nat.id by lia. lia. }
    rewrite Z2Nat.id in Hi by lia.
    exists i. split; [lia|]. apply (Hpix i y x); lia.
Qed.

Lemma sweep_covers_canvas_witness :
  exists s, generate 5 1 2 = Some s /\
    exists i, 0 <= i < 2 /\ texel_at s 5 1 i 0 4 = Some (Some 0xffffffff).
Proof.
  destruct (sweep_covers_canvas 5 1 2) as (s & E & H).
  exists s. split; [exact E|].
  destruct (H 0 4 ltac:(lia) ltac:(lia) ltac:(lia)) as (_ & _ & Hsome).
  exact Hsome.
Defined.

(** X4. When the canvas has at least as many columns as there are frames,
    no two frames are the same picture: the first column of the earlier
    bar is white in the earlier frame and black in the later one. *)
Theorem frames_differ (w h n : Z) :
  exists s, generate w h n = Some s /\
    forall i j y, 0 < n <= w -> 0 <= i < j -> j < n -> 0 <= y < h ->
      texel_at s w h i y (i * w / n) = Some (Some 0xffffffff) /\
      texel_at s w h j y (i * w / n) = Some (Some 0).
Proof.
  destruct (generated_texels w h n) as (s & E & Hpix).
  exists s. split; [exact E|]. intros i j y Hn Hij Hj Hy.
  assert (Hbw : 0 <= w / n) by (apply Z.div_pos; lia).
  pose proof (bar_on_canvas w n i ltac:(lia) ltac:(lia)) as Hbar.
  pose proof (bar_strictly_increasing w n i j Hn Hij) as Hlt.
  split.
  - apply (Hpix i y (i * w / n)); lia.
  - apply (Hpix j y (i * w / n)); lia.
Qed.

Lemma frames_differ_witness :
  exists s, generate 4 1 2 = Some s /\
    texel_at s 4 1 0 0 (0 * 4 / 2) = Some (Some 0xffffffff) /\
    texel_at s 4 1 1 0 (0 * 4 / 2) = Some (Some 0).
Proof.
  destruct (frames_differ 4 1 2) as (s & E & H).
  exists s. split; [exact E|].
  apply (H 0 1 0); lia.
Defined.

(** * Further properties of the shader objects *)

Lemma c_str_whole (l : list ascii) : NUL ∉ l -> c_str l = l.
Proof.
  induction l as [|c l IH]; intros Hnul; cbn [c_str]; [reflexivity|].
  apply not_elem_of_cons in Hnul as [Hc Hl].
  destruct (decide (c = NUL)); [congruence|]. now rewrite IH.
Qed.

Lemma not_elem_of_take {A} (x : A) (l : list A) (k : nat) :
  x ∉ l -> x ∉ take k l.
Proof.
  intros Hl Hin. apply Hl.
  rewrite <- (take_drop k l). apply elem_of_app. now left.
Qed.

(** X5. What reaches the exception is the driver's log itself when the log
    fits: a log without NUL of at most 511 characters is carried whole, a
    longer one is cut to exactly its first 511 characters; the message
    never contains a NUL. *)
Theorem compile_carries_log (w : world) (src : string) (sh : shader_base) :
  fst (driver_compile w (prog_type sh) src) <> GL_TRUE ->
  NUL ∉ snd (driver_compile w (prog_type sh) src) ->
  exists what,
    snd (compile w src sh) = Thrown what /\
    (NUL ∉ what) /\
    ((length (snd (driver_compile w (prog_type sh) src)) <= 511)%nat ->
       what = snd (driver_compile w (prog_type sh) src)) /\
    ((511 <= length (snd (driver_compile w (prog_type sh) src)))%nat ->
       what = take 511 (snd (driver_compile w (prog_type sh) src)) /\
       length what = 511%nat).
Proof.
  intros Hbad Hnul. rewrite compile_fails by exact Hbad. cbn [snd].
  destruct (compile_message (snd (driver_compile w (prog_type sh) src)))
    as (-> & _ & _).
  rewrite c_str_whole by now apply not_elem_of_take.
  eexists. split; [reflexivity|].
  split; [now apply not_elem_of_take|]. split.
  - intros Hlen. now apply take_ge.
  - intros Hlen. split; [reflexivity|]. rewrite length_take. lia.
Qed.

Lemma compile_carries_log_witness :
  exists what,
    snd (compile (sample_world verbose_driver []) "void main( {"
           (ShaderBase GL_VERTEX_SHADER 1)) = Thrown what /\
    length what = 511%nat.
Proof.
  destruct (compile_carries_log (sample_world verbose_driver [])
              "void main( {" (ShaderBase GL_VERTEX_SHADER 1))
    as (what & Hthrown & _ & _ & Hlong).
  - cbn. unfold GL_FALSE, GL_TRUE. lia.
  - change (NUL ∉ replicate 600 "e"%char).
    intros Hin. apply elem_of_replicate in Hin as [Hin _].
    discriminate Hin.
  - exists what. split; [exact Hthrown|].
    apply Hlong. change (511 <= length (replicate 600 "e"%char))%nat.
    rewrite length_replicate. lia.
Defined.

Lemma shader_base_new_fails (w : world) (src : string) (type : shader_kind) :
  fst (driver_compile w type src) <> GL_TRUE ->
  shader_base_new w src type =
  ([GlCreateShader type (shader_name w type);
    GlShaderSource (shader_name w type) src;
    GlCompileShader (shader_name w type);
    GlGetShaderiv (shader_name w type) (fst (driver_compile w type src));
    GlGetShaderInfoLog (shader_name w type) 512],
   Thrown (c_str (info_log_buffer 512 (snd (driver_compile w type src))))).
Proof.
  intros Hst. unfold shader_base_new, answer, call. cbn [bind].
  rewrite (compile_fails w src (ShaderBase type (shader_name w type)))
    by exact Hst.
  reflexivity.
Qed.

(** X6. A shader object lives as long as its scope. When the source
    compiles, the object is deleted exactly once, after everything the
    scope does, whether the scope runs to its end or executes [return].
    When the source does not compile, the constructor throws after
    [glCreateShader]: the rest of the scope never runs and the shader that
    was created is never deleted. *)
Theorem shader_scope (w : world) (src : string) (type : shader_kind)
    (B : Type) (rest : shader_base -> M B) :
  (fst (driver_compile w type src) = GL_TRUE ->
     forall t code,
       (forall b, rest (ShaderBase type (shader_name w type)) = (t, Normal b) ->
          released (fst (scoped (shader_base_new w src type)
                           shader_base_delete rest)) =
          released t ++ [Shader (shader_name w type)]) /\
       (rest (ShaderBase type (shader_name w type)) = (t, Returned code) ->
          scoped (shader_base_new w src type) shader_base_delete rest =
          (fst (shader_base_new w src type) ++ t
             ++ [GlDeleteShader (shader_name w type)], Returned code))) /\
  (fst (driver_compile w type src) <> GL_TRUE ->
     exists t what,
       scoped (shader_base_new w src type) shader_base_delete rest =
         (t, Thrown what) /\
       created t = [Shader (shader_name w type)] /\
       released t = []).
Proof.
  split.
  - intros Hok t code. unfold scoped.
    rewrite shader_base_new_ok by exact Hok. cbn [bind fst]. split.
    + intros b ->. cbn [fst shader_base_delete shader_obj].
      rewrite !released_app. reflexivity.
    + intros ->. reflexivity.
  - intros Hbad. unfold scoped.
    rewrite shader_base_new_fails by exact Hbad. cbn [bind].
    eexists _, _. split; [reflexivity|]. split; reflexivity.
Qed.

Lemma shader_scope_witness :
  exists t what,
    scoped (shader_base_new (sample_world silent_driver []) "x"
              GL_FRAGMENT_SHADER)
      shader_base_delete (fun _ => call GlfwTerminate) = (t, Thrown what) /\
    created t = [Shader 2] /\ released t = [].
Proof.
  apply (proj2 (shader_scope (sample_world silent_driver []) "x"
                  GL_FRAGMENT_SHADER unit (fun _ => call GlfwTerminate))).
  cbn. unfold GL_FALSE, GL_TRUE. lia.
Defined.

(** * Further properties of the shader program *)

(** X7. A chain of member calls issues the driver calls of its members in
    call order and always completes: nothing in it checks a status or
    throws. Every attach of the fragment shader, a repeated one too, binds
    the output again, each time colour number 0 to ["outColor"]; the other
    members bind nothing. *)
Theorem program_chain_composes (handle : Z) (vp fp : shader_base)
    (cs : list program_call) :
  snd (program_chain handle vp fp cs) = Normal tt /\
  fst (program_chain handle vp fp cs) =
    concat (map (fun c => fst (program_call_run handle vp fp c)) cs) /\
  bindings (fst (program_chain handle vp fp cs)) =
    replicate (length (List.filter is_fragment_attach cs))
      (handle, 0, "outColor"%string).
Proof.
  induction cs as [|c cs (IHr & IHt & IHb)].
  - repeat split; reflexivity.
  - rewrite program_chain_cons. cbn [fst snd].
    split; [exact IHr|]. split.
    + cbn [map concat]. now rewrite IHt.
    + unfold bindings in *. rewrite omap_app, IHb.
      destruct c; reflexivity.
Qed.

(** * Further properties of the render loop *)

Lemma frame_offsets_mod (W H N i : Z) (len : nat) :
  0 < N -> 0 <= i ->
  frame_offset W H N <$> seqZ i (Z.of_nat len) =
  (fun k => (k mod N) * W * H) <$> seqZ i (Z.of_nat len).
Proof.
  intros HN Hi. apply Forall_fmap_ext_1, Forall_seqZ. intros k Hk.
  apply frame_offset_mod; lia.
Qed.

(** The uploads of a run up to and including the iteration after a stretch
    without an exit request, whatever that iteration results in. *)
Lemma upload_offsets_upto (W H N : Z) (frame : framebuffer)
    (pre : list sample) (i : Z) (s : sample) (r : result unit) :
  Forall (fun s => ~ exit_requested s) pre ->
  0 <= i -> i + Z.of_nat (length pre) <= INT_MAX ->
  upload_offsets
    (fst (render_loop W H N frame pre i)
       ++ fst (body_events W H N frame (i + Z.of_nat (length pre))
                 ++ condition_events s, r)) =
  frame_offset W H N <$> seqZ i (Z.of_nat (S (length pre))).
Proof.
  intros Hpre Hi Hlen.
  destruct (render_loop_running W H N frame pre Hpre i Hi Hlen) as [_ Ht].
  cbn [fst]. rewrite upload_offsets_app, Ht, upload_offsets_iteration.
  now rewrite seqZ_S, fmap_app.
Qed.

(** X8. What a run shows. If the first exit request comes with sample
    number [m] (counted from 0), the loop uploads exactly [m + 1] frames,
    frame [k mod N] in iteration [k]: the body runs before the first check,
    so frame 0 is shown even when the key is already down, and the samples
    after the exit request are never looked at. *)
Theorem display_sequence (W H N : Z) (frame : framebuffer)
    (pre : list sample) (s : sample) (rest : list sample) :
  0 < N ->
  Forall (fun s => ~ exit_requested s) pre ->
  Z.of_nat (length pre) < INT_MAX ->
  exit_requested s ->
  render_loop W H N frame (pre ++ s :: rest) 0 =
    render_loop W H N frame (pre ++ [s]) 0 /\
  snd (render_loop W H N frame (pre ++ s :: rest) 0) = Normal tt /\
  upload_offsets (fst (render_loop W H N frame (pre ++ s :: rest) 0)) =
    (fun k => (k mod N) * W * H) <$> seqZ 0 (Z.of_nat (length pre) + 1) /\
  (forall w, starts w -> shaders_compile w ->
     samples w = pre ++ s :: rest ->
     upload_offsets (fst (flipbook W H N w)) =
     (fun k => (k mod N) * W * H) <$> seqZ 0 (Z.of_nat (length pre) + 1)).
Proof.
  intros HN Hpre Hlen He.
  assert (Hup : upload_offsets
            (fst (render_loop W H N frame (pre ++ s :: rest) 0)) =
          (fun k => (k mod N) * W * H) <$> seqZ 0 (Z.of_nat (length pre) + 1)).
  { rewrite render_loop_leaves by assumption. cbn [fst].
    pose proof (upload_offsets_upto W H N frame pre 0 s (Normal tt) Hpre
                  ltac:(lia) ltac:(lia)) as Hupto.
    cbn [fst] in Hupto. rewrite Z.add_0_l in Hupto. rewrite Hupto.
    rewrite frame_offsets_mod by lia. f_equal. f_equal. lia. }
  split; [|split; [|split]].
  - now rewrite !render_loop_leaves by assumption.
  - now rewrite render_loop_leaves by assumption.
  - exact Hup.
  - intros w Hst Hsh Hsamples.
    destruct (flipbook_uploads_started W H N w Hst Hsh) as [-> _].
    rewrite Hsamples.
    rewrite render_loop_leaves by assumption. cbn [fst].
    pose proof (upload_offsets_upto W H N (Framebuffer (texture_name w) W H)
                  pre 0 s (Normal tt) Hpre ltac:(lia) ltac:(lia)) as Hupto.
    cbn [fst] in Hupto. rewrite Z.add_0_l in Hupto. rewrite Hupto.
    rewrite frame_offsets_mod by lia. f_equal. f_equal. lia.
Qed.

Lemma display_sequence_witness :
  upload_offsets
    (fst (render_loop 4 2 3 (Framebuffer 1 4 2)
            ([Sample GLFW_RELEASE 0; Sample GLFW_RELEASE 0;
              Sample GLFW_RELEASE 0; Sample GLFW_RELEASE 0]
               ++ Sample GLFW_PRESS 0 :: [Sample GLFW_RELEASE 0]) 0)) =
  (fun k => (k mod 3) * 4 * 2) <$> seqZ 0 (Z.of_nat 4 + 1).
Proof.
  apply (display_sequence 4 2 3 (Framebuffer 1 4 2)
           [Sample GLFW_RELEASE 0; Sample GLFW_RELEASE 0;
            Sample GLFW_RELEASE 0; Sample GLFW_RELEASE 0]
           (Sample GLFW_PRESS 0) [Sample GLFW_RELEASE 0]).
  - lia.
  - repeat constructor; unfold exit_requested, GLFW_PRESS, GLFW_RELEASE;
      cbn; lia.
  - cbn. unfold INT_MAX. lia.
  - left. reflexivity.
Defined.

(** X9. The exit check does not read the counter. In the iteration in
    which the counter stands at [INT_MAX] the frame of [INT_MAX] is uploaded,
    [++i] wraps the counter around to [INT_MIN], and the check is made as in
    every other iteration: an exit request in that iteration ends the loop,
    and [main] releases what it created and returns 0; without one the loop
    goes on from [INT_MIN]. *)
Theorem counter_wraps (W H N : Z) (frame : framebuffer) (i : Z)
    (pre : list sample) (s : sample) (rest : list sample) :
  0 <= i ->
  i + Z.of_nat (length pre) = INT_MAX ->
  Forall (fun s => ~ exit_requested s) pre ->
  (exit_requested s ->
     render_loop W H N frame (pre ++ s :: rest) i =
       (fst (render_loop W H N frame pre i)
          ++ body_events W H N frame INT_MAX ++ condition_events s,
        Normal tt) /\
     upload_offsets (fst (render_loop W H N frame (pre ++ s :: rest) i)) =
       frame_offset W H N <$> seqZ i (Z.of_nat (length pre) + 1)) /\
  (~ exit_requested s ->
     render_loop W H N frame (pre ++ s :: rest) i =
       (fst (render_loop W H N frame pre i)
          ++ (body_events W H N frame INT_MAX ++ condition_events s)
          ++ fst (render_loop W H N frame rest INT_MIN),
        snd (render_loop W H N frame rest INT_MIN))) /\
  (i = 0 -> exit_requested s ->
   forall w, starts w -> shaders_compile w ->
     samples w = pre ++ s :: rest ->
     exit_status (flipbook W H N w) = Some 0 /\
     snd (flipbook W H N w) = Returned 0 /\
     released (fst (flipbook W H N w)) = shutdown_resources w).
Proof.
  intros Hi Hlen Hpre.
  assert (Hrun : forall frame', exit_requested s ->
            render_loop W H N frame' (pre ++ s :: rest) i =
            (fst (render_loop W H N frame' pre i)
               ++ body_events W H N frame' INT_MAX ++ condition_events s,
             Normal tt)).
  { intros frame' He. rewrite render_loop_app by (try assumption; lia).
    rewrite Hlen, render_loop_exit_any by assumption. reflexivity. }
  split; [|split].
  - intros He. split; [now apply Hrun|].
    rewrite Hrun by assumption. cbn [fst].
    destruct (render_loop_running W H N frame pre Hpre i Hi ltac:(lia))
      as [_ Ht].
    rewrite upload_offsets_app, Ht, upload_offsets_iteration.
    replace (Z.of_nat (length pre) + 1) with (Z.of_nat (S (length pre)))
      by lia.
    rewrite seqZ_S, fmap_app, Hlen. reflexivity.
  - intros He. now apply render_loop_wraps.
  - intros -> He w Hst Hsh Hsamples.
    rewrite flipbook_exit_status.
    destruct (decide (starts w)); [|contradiction].
    destruct (decide (shaders_compile w)); [|contradiction].
    rewrite flipbook_started by assumption. cbn zeta.
    rewrite Hsamples, Hrun by assumption. cbn [fst snd].
    split; [reflexivity|]. split; [reflexivity|].
    set (frame' := Framebuffer (texture_name w) W H).
    set (loop := fst (render_loop W H N frame' pre 0)
                   ++ body_events W H N frame' INT_MAX ++ condition_events s).
    assert (Hlr : released loop = []).
    { destruct (render_loop_no_resources W H N frame' (pre ++ s :: rest) 0)
        as [_ Hn].
      rewrite Hrun in Hn by assumption. exact Hn. }
    rewrite app_assoc, released_app, (released_app (setup_events W H w)), Hlr.
    reflexivity.
Qed.

(** X9 with the counter one short of [INT_MAX]: the escape key, pressed in
    the iteration in which the counter wraps, ends the loop. *)
Lemma counter_wraps_witness :
  render_loop 1024 768 10 (Framebuffer 1 1024 768)
    ([idle] ++ Sample GLFW_PRESS 0 :: []) 2147483646 =
  (fst (render_loop 1024 768 10 (Framebuffer 1 1024 768) [idle] 2147483646)
     ++ body_events 1024 768 10 (Framebuffer 1 1024 768) INT_MAX
     ++ condition_events (Sample GLFW_PRESS 0),
   Normal tt).
Proof.
  refine (proj1 (proj1 (counter_wraps 1024 768 10 (Framebuffer 1 1024 768)
                          2147483646 [idle] (Sample GLFW_PRESS 0) []
                          _ _ _) _)).
  - lia.
  - reflexivity.
  - repeat constructor; unfold exit_requested, idle, GLFW_PRESS, GLFW_RELEASE;
      cbn; lia.
  - left. reflexivity.
Defined.

Lemma render_loop_normal_inv (W H N : Z) (frame : framebuffer)
    (ins : list sample) :
  forall i,
  snd (render_loop W H N frame ins i) = Normal tt ->
  exists pre s rest,
    ins = pre ++ s :: rest /\
    Forall (fun s => ~ exit_requested s) pre /\
    exit_requested s.
Proof.
  induction ins as [|s ins IH]; intros i Hn.
  - discriminate Hn.
  - destruct (decide (exit_requested s)) as [He|He].
    + exists [], s, ins. cbn [app]. repeat split; try assumption.
      constructor.
    + rewrite render_loop_again_any in Hn by assumption. cbn [snd] in Hn.
      destruct (IH (int_succ i) Hn) as (pre & s' & rest & -> & Hpre & He').
      exists (s :: pre), s', rest. cbn [app].
      repeat split; try assumption.
      now constructor.
Qed.

(** X10. Status 0 is returned only after an exit request: if [main] exits
    with 0, all three start-up steps succeeded, both shaders compiled, and
    some sample had the key pressed or the close flag set, with no exit
    request before it. *)
Theorem exit_zero_only_on_request (W H N : Z) (w : world) :
  exit_status (flipbook W H N w) = Some 0 ->
  starts w /\ shaders_compile w /\
  exists pre s rest,
    samples w = pre ++ s :: rest /\
    Forall (fun s => ~ exit_requested s) pre /\
    (key_state s = GLFW_PRESS \/ close_flag s <> 0).
Proof.
  rewrite flipbook_exit_status.
  destruct (decide (starts w)) as [Hst|Hst]; [|discriminate].
  destruct (decide (shaders_compile w)) as [Hsh|Hsh]; [|discriminate].
  intros Hexit. split; [exact Hst|]. split; [exact Hsh|].
  destruct (render_loop_normal_inv W H N (Framebuffer (texture_name w) W H)
              (samples w) 0) as (pre & s & rest & E & Hpre & He).
  { destruct (snd (render_loop _ _ _ _ _ _)) as [[]| | | |];
      try discriminate Hexit. reflexivity. }
  now exists pre, s, rest.
Qed.

Lemma exit_zero_only_on_request_witness :
  starts (sample_world accepting_driver [Sample GLFW_PRESS 0]) /\
  shaders_compile (sample_world accepting_driver [Sample GLFW_PRESS 0]) /\
  exists pre s rest,
    samples (sample_world accepting_driver [Sample GLFW_PRESS 0]) =
      pre ++ s :: rest /\
    Forall (fun s => ~ exit_requested s) pre /\
    (key_state s = GLFW_PRESS \/ close_flag s <> 0).
Proof.
  apply (exit_zero_only_on_request 4 2 3
           (sample_world accepting_driver [Sample GLFW_PRESS 0])).
  reflexivity.
Defined.

(** * Further properties of [main] *)

(** The traces of the runs that do not reach the loop, in full. *)
Lemma flipbook_window_fails_trace (W H N : Z) (w : world) :
  glfwInit_result w <> 0 -> glfwCreateWindow_result w = NULL ->
  flipbook W H N w =
  (window_events W H ++ [Cerr msg_window; GlfwTerminate], Returned (-1)).
Proof.
  intros Hinit Hwin. enter_main W H N. pass_glfwInit. take_branch.
  reflexivity.
Qed.

Lemma flipbook_glew_fails_trace (W H N : Z) (w : world) :
  glfwInit_result w <> 0 -> glfwCreateWindow_result w <> NULL ->
  glewInit_result w <> GLEW_OK ->
  flipbook W H N w =
  (startup_events W H ++ [Cerr msg_glew; GlfwTerminate], Returned (-1)).
Proof.
  intros Hinit Hwin Hglew. enter_main W H N. pass_glfwInit. pass_window.
  take_branch. reflexivity.
Qed.

Lemma flipbook_vertex_fails (W H N : Z) (w : world) :
  starts w ->
  fst (driver_compile w GL_VERTEX_SHADER vertex_prog) <> GL_TRUE ->
  flipbook W H N w =
  (startup_events W H ++ context_events w
     ++ fst (shader_base_new w vertex_prog GL_VERTEX_SHADER),
   Thrown (c_str (info_log_buffer 512
             (snd (driver_compile w GL_VERTEX_SHADER vertex_prog))))).
Proof.
  intros (Hinit & Hwin & Hglew) Hvs.
  enter_main W H N. pass_glfwInit. pass_window. pass_glewInit.
  unfold vertex_shader, scoped at 1.
  rewrite (shader_base_new_fails w vertex_prog GL_VERTEX_SHADER Hvs).
  cbn [bind fst snd]. reflexivity.
Qed.

Lemma flipbook_fragment_fails (W H N : Z) (w : world) :
  starts w ->
  fst (driver_compile w GL_VERTEX_SHADER vertex_prog) = GL_TRUE ->
  fst (driver_compile w GL_FRAGMENT_SHADER fragment_prog) <> GL_TRUE ->
  flipbook W H N w =
  (startup_events W H ++ context_events w
     ++ fst (shader_base_new w vertex_prog GL_VERTEX_SHADER)
     ++ fst (shader_base_new w fragment_prog GL_FRAGMENT_SHADER),
   Thrown (c_str (info_log_buffer 512
             (snd (driver_compile w GL_FRAGMENT_SHADER fragment_prog))))).
Proof.
  intros (Hinit & Hwin & Hglew) Hvs Hfs.
  enter_main W H N. pass_glfwInit. pass_window. pass_glewInit.
  unfold vertex_shader, scoped at 1.
  rewrite (shader_base_new_ok w vertex_prog GL_VERTEX_SHADER Hvs).
  cbn [bind].
  unfold fragment_shader, scoped at 1.
  rewrite (shader_base_new_fails w fragment_prog GL_FRAGMENT_SHADER Hfs).
  cbn [bind fst snd]. reflexivity.
Qed.

Lemma terminations_app (t1 t2 : list event) :
  terminations (t1 ++ t2) = (terminations t1 + terminations t2)%nat.
Proof. unfold terminations. now rewrite List.filter_app, length_app. Qed.

Lemma render_loop_no_terminate (W H N : Z) (frame : framebuffer)
    (ins : list sample) :
  forall i, terminations (fst (render_loop W H N frame ins i)) = 0%nat.
Proof.
  assert (Hiter : forall i s,
    terminations (body_events W H N frame i ++ condition_events s) = 0%nat).
  { intros i s. unfold condition_events.
    now destruct (decide (key_state s <> GLFW_PRESS)). }
  induction ins as [|s ins IH]; intros i.
  - reflexivity.
  - destruct (decide (exit_requested s)) as [He|He].
    + rewrite render_loop_exit_any by assumption. apply Hiter.
    + rewrite render_loop_again_any by assumption. cbn [fst].
      rewrite (terminations_app (body_events W H N frame i ++ condition_events s)).
      now rewrite Hiter, IH.
Qed.

(** A run in which the three start-up steps succeed begins with the calls
    up to [glewInit]; any other run makes no OpenGL call at all. *)
Lemma flipbook_after_startup (W H N : Z) (w : world) :
  starts w ->
  exists t', fst (flipbook W H N w) = startup_events W H ++ t'.
Proof.
  intros Hst.
  destruct (decide (fst (driver_compile w GL_VERTEX_SHADER vertex_prog) = GL_TRUE))
    as [Hvs|Hvs].
  - destruct (decide (fst (driver_compile w GL_FRAGMENT_SHADER fragment_prog)
                      = GL_TRUE)) as [Hfs|Hfs].
    + rewrite flipbook_started by (try assumption; now split). cbn zeta.
      destruct (snd (render_loop _ _ _ _ _ _)); cbn [fst];
        eexists; unfold setup_events, startup_events, window_events;
        cbn [app]; reflexivity.
    + rewrite (flipbook_fragment_fails W H N w Hst Hvs Hfs). cbn [fst].
      eexists. reflexivity.
  - rewrite (flipbook_vertex_fails W H N w Hst Hvs). cbn [fst].
    eexists. reflexivity.
Qed.

Lemma flipbook_not_started (W H N : Z) (w : world) :
  ~ starts w ->
  Forall (fun e => is_gl_call e = false) (fst (flipbook W H N w)).
Proof.
  intros Hst. unfold starts in Hst.
  destruct (decide (glfwInit_result w = 0)) as [Hinit|Hinit].
  { rewrite flipbook_glfw_fails by assumption. repeat constructor. }
  destruct (decide (glfwCreateWindow_result w = NULL)) as [Hwin|Hwin].
  { rewrite flipbook_window_fails_trace by assumption. repeat constructor. }
  destruct (decide (glewInit_result w = GLEW_OK)) as [Hglew|Hglew].
  { contradiction Hst. auto. }
  rewrite flipbook_glew_fails_trace by assumption. repeat constructor.
Qed.

(** X11. No OpenGL call before the loader is up: whatever the libraries
    answer, every OpenGL call of a run comes after [glfwMakeContextCurrent]
    and [glewInit], and is made only in runs in which [glfwInit], the
    creation of the window and [glewInit] all succeeded. *)
Theorem gl_calls_after_init (W H N : Z) (w : world) (k : nat) (e : event) :
  fst (flipbook W H N w) !! k = Some e ->
  is_gl_call e = true ->
  starts w /\
  (8 < k)%nat /\
  fst (flipbook W H N w) !! 7%nat = Some GlfwMakeContextCurrent /\
  fst (flipbook W H N w) !! 8%nat = Some GlewInit.
Proof.
  intros Hk Hgl.
  destruct (decide (starts w)) as [Hst|Hst].
  - split; [exact Hst|].
    destruct (flipbook_after_startup W H N w Hst) as [t' E].
    rewrite E in *. split; [|split; reflexivity].
    destruct (decide (8 < k)%nat) as [Hlt|Hge]; [exact Hlt|].
    exfalso. rewrite lookup_app_l in Hk by (cbn; lia).
    assert (Hnone : Forall (fun e => is_gl_call e = false) (startup_events W H))
      by repeat constructor.
    rewrite Forall_lookup in Hnone. specialize (Hnone k e Hk). congruence.
  - exfalso. pose proof (flipbook_not_started W H N w Hst) as Hnone.
    rewrite Forall_lookup in Hnone. specialize (Hnone k e Hk). congruence.
Qed.

Lemma gl_calls_after_init_witness :
  starts (sample_world accepting_driver [Sample GLFW_PRESS 0]) /\
  (8 < 16)%nat /\
  fst (flipbook 4 2 3 (sample_world accepting_driver [Sample GLFW_PRESS 0]))
    !! 7%nat = Some GlfwMakeContextCurrent /\
  fst (flipbook 4 2 3 (sample_world accepting_driver [Sample GLFW_PRESS 0]))
    !! 8%nat = Some GlewInit.
Proof.
  apply (gl_calls_after_init 4 2 3
           (sample_world accepting_driver [Sample GLFW_PRESS 0]) 16
           (GlGenVertexArrays 1)).
  - reflexivity.
  - reflexivity.
Defined.

(** X12. [glfwTerminate] is called once on every path on which [main]
    returns after [glfwInit] succeeded, not at all when [glfwInit] failed,
    and not at all on a path on which [main] does not return: one that a
    compile error ends, or one that is still in the loop. *)
Theorem terminate_once (W H N : Z) (w : world) :
  terminations (fst (flipbook W H N w)) =
  match exit_status (flipbook W H N w) with
  | Some _ => if decide (glfwInit_result w = 0) then 0%nat else 1%nat
  | None => 0%nat
  end.
Proof.
  destruct (decide (starts w)) as [Hst|Hst].
  - assert (Hinit : glfwInit_result w <> 0) by apply Hst.
    destruct (decide (glfwInit_result w = 0)) as [|_]; [contradiction|].
    destruct (decide (fst (driver_compile w GL_VERTEX_SHADER vertex_prog)
                      = GL_TRUE)) as [Hvs|Hvs].
    + destruct (decide (fst (driver_compile w GL_FRAGMENT_SHADER fragment_prog)
                        = GL_TRUE)) as [Hfs|Hfs].
      * rewrite flipbook_started by (try assumption; now split). cbn zeta.
        pose proof (render_loop_no_terminate W H N
                      (Framebuffer (texture_name w) W H) (samples w) 0) as Hl.
        pose proof (render_loop_result W H N
                      (Framebuffer (texture_name w) W H) (samples w) 0) as Hres.
        destruct (render_loop W H N (Framebuffer (texture_name w) W H)
                    (samples w) 0) as [t r].
        cbn [fst snd] in *.
        destruct r as [[]| | | |];
          try (destruct Hres as [Hres|Hres]; discriminate Hres);
          cbn [fst]; rewrite ?terminations_app, Hl; reflexivity.
      * rewrite (flipbook_fragment_fails W H N w Hst Hvs Hfs).
        rewrite (shader_base_new_ok w vertex_prog GL_VERTEX_SHADER Hvs).
        rewrite (shader_base_new_fails w fragment_prog GL_FRAGMENT_SHADER Hfs).
        reflexivity.
    + rewrite (flipbook_vertex_fails W H N w Hst Hvs).
      rewrite (shader_base_new_fails w vertex_prog GL_VERTEX_SHADER Hvs).
      reflexivity.
  - unfold starts in Hst.
    destruct (decide (glfwInit_result w = 0)) as [Hinit|Hinit].
    { now rewrite flipbook_glfw_fails. }
    destruct (decide (glfwCreateWindow_result w = NULL)) as [Hwin|Hwin].
    { now rewrite flipbook_window_fails_trace. }
    destruct (decide (glewInit_result w = GLEW_OK)) as [Hglew|Hglew].
    { contradiction Hst. auto. }
    now rewrite flipbook_glew_fails_trace.
Qed.

(** X13. A shader that does not compile ends [main] with the error of the
    first shader that fails, the vertex shader before the fragment shader.
    Nothing catches it: [main] never reaches the loop, never calls
    [glfwTerminate], never creates the program, the buffers or the texture,
    and never deletes the vertex-array object it has created. *)
Theorem compile_failure_in_main (W H N : Z) (w : world) :
  starts w -> ~ shaders_compile w ->
  exists t what,
    flipbook W H N w = (t, Thrown what) /\
    (fst (driver_compile w GL_VERTEX_SHADER vertex_prog) <> GL_TRUE ->
       what = c_str (take 511
                (snd (driver_compile w GL_VERTEX_SHADER vertex_prog))) /\
       created t = [VertexArray (vao_name w);
                    Shader (shader_name w GL_VERTEX_SHADER)]) /\
    (fst (driver_compile w GL_VERTEX_SHADER vertex_prog) = GL_TRUE ->
       what = c_str (take 511
                (snd (driver_compile w GL_FRAGMENT_SHADER fragment_prog))) /\
       created t = [VertexArray (vao_name w);
                    Shader (shader_name w GL_VERTEX_SHADER);
                    Shader (shader_name w GL_FRAGMENT_SHADER)]) /\
    upload_offsets t = [] /\
    terminations t = 0%nat /\
    (forall n, VertexArray n ∉ released t).
Proof.
  intros Hst Hsh.
  destruct (decide (fst (driver_compile w GL_VERTEX_SHADER vertex_prog) = GL_TRUE))
    as [Hvs|Hvs].
  - assert (Hfs : fst (driver_compile w GL_FRAGMENT_SHADER fragment_prog)
                  <> GL_TRUE).
    { intros Hfs. apply Hsh. now split. }
    rewrite (flipbook_fragment_fails W H N w Hst Hvs Hfs).
    rewrite (shader_base_new_ok w vertex_prog GL_VERTEX_SHADER Hvs).
    rewrite (shader_base_new_fails w fragment_prog GL_FRAGMENT_SHADER Hfs).
    cbn [fst].
    destruct (compile_message
                (snd (driver_compile w GL_FRAGMENT_SHADER fragment_prog)))
      as (-> & _ & _).
    eexists _, _. split; [reflexivity|].
    split; [intros Hne; contradiction|].
    split; [intros _; split; reflexivity|].
    split; [reflexivity|]. split; [reflexivity|].
    intros n Hin. now apply elem_of_nil in Hin.
  - rewrite (flipbook_vertex_fails W H N w Hst Hvs).
    rewrite (shader_base_new_fails w vertex_prog GL_VERTEX_SHADER Hvs).
    cbn [fst].
    destruct (compile_message
                (snd (driver_compile w GL_VERTEX_SHADER vertex_prog)))
      as (-> & _ & _).
    eexists _, _. split; [reflexivity|].
    split; [intros _; split; reflexivity|].
    split; [intros He; contradiction|].
    split; [reflexivity|]. split; [reflexivity|].
    intros n Hin. now apply elem_of_nil in Hin.
Qed.

Lemma compile_failure_in_main_witness :
  exists t what,
    flipbook 4 2 3 (sample_world verbose_driver [Sample GLFW_PRESS 0]) =
      (t, Thrown what) /\
    terminations t = 0%nat.
Proof.
  destruct (compile_failure_in_main 4 2 3
              (sample_world verbose_driver [Sample GLFW_PRESS 0]))
    as (t & what & E & _ & _ & _ & Hterm & _).
  - unfold starts, sample_world, NULL, GLEW_OK. cbn. lia.
  - intros [Hvs _]. discriminate Hvs.
  - exists t, what. split; [exact E | exact Hterm].
Defined.

(** * Widths of all bars *)

(** X14. Every frame but the last has a bar of exactly [width/N + 1]
    columns. The bar of the last frame ends at the last column or is cut
    off by it: it has [width/N] columns when its range runs one past the
    canvas, which is the case whenever [N] divides [width], and
    [width/N + 1] columns otherwise. *)
Theorem bar_widths (w h n : Z) :
  exists s, generate w h n = Some s /\
    forall i y, 0 < w -> 0 <= i < n -> 0 <= y < h ->
      (i < n - 1 -> Z.of_nat (white_columns s w h i y) = w / n + 1) /\
      (i = n - 1 -> (n - 1) * w / n + w / n = w ->
         Z.of_nat (white_columns s w h i y) = w / n) /\
      (i = n - 1 -> (n - 1) * w / n + w / n <> w ->
         Z.of_nat (white_columns s w h i y) = w / n + 1) /\
      (i = n - 1 -> w mod n = 0 ->
         Z.of_nat (white_columns s w h i y) = w / n).
Proof.
  destruct (generate_total w h n) as [s E].
  exists s. split; [exact E|]. intros i y Hw Hi Hy.
  rewrite (white_columns_generated s w h n i y E Hi Hy) by lia.
  rewrite bar_of_div, barw_of_div by lia.
  assert (Hbw : 0 <= w / n) by (apply Z.div_pos; lia).
  pose proof (bar_on_canvas w n i Hw Hi) as Hbar.
  pose proof (bar_step w n i ltac:(lia) ltac:(lia) ltac:(lia)) as Hstep.
  assert (Hlast : i = n - 1 -> (i + 1) * w / n = w).
  { intros ->. replace ((n - 1 + 1) * w) with (w * n) by ring.
    apply Z.div_mul. lia. }
  split; [|split; [|split]].
  - intros Hin.
    pose proof (bar_on_canvas w n (i + 1) Hw ltac:(lia)). lia.
  - intros -> Hcut. lia.
  - intros Heq Hfit. specialize (Hlast Heq). subst i. lia.
  - intros Heq Hdiv. specialize (Hlast Heq). subst i.
    assert (Hexact : (n - 1) * w / n = w - w / n).
    { pose proof (Z.div_mod w n ltac:(lia)) as Hw'. rewrite Hdiv in Hw'.
      replace ((n - 1) * w) with ((w - w / n) * n) by nia.
      apply Z.div_mul. lia. }
    lia.
Qed.

Lemma bar_widths_witness :
  exists s, generate 4 1 2 = Some s /\
    Z.of_nat (white_columns s 4 1 0 0) = 4 / 2 + 1 /\
    Z.of_nat (white_columns s 4 1 1 0) = 4 / 2.
Proof.
  destruct (bar_widths 4 1 2) as (s & E & H).
  exists s. split; [exact E|]. split.
  - destruct (H 0 0 ltac:(lia) ltac:(lia) ltac:(lia)) as (Hinner & _).
    apply Hinner. lia.
  - destruct (H 1 0 ltac:(lia) ltac:(lia) ltac:(lia)) as (_ & Hcut & _).
    apply Hcut; reflexivity.
Defined.
